(** * url-submitter: a shallow embedding of [main.py]

    The program reads an RSS sitemap, collects the text of every
    [item/link] element, derives the site origin from the first URL and
    posts the URLs to two indexing endpoints (Bing's batch endpoint and
    IndexNow).  This file embeds [SitemapParser.parse_rss_sitemap],
    [BingSubmitter.submit_urls], [IndexNowSubmitter.submit_urls] and [main]
    as functions in a reader/state/exception monad and states the
    properties of the specification about them.

    Conventions.
    - A Python [str] is a Rocq [string] holding its UTF-8 encoding.
    - A Python [int] is a [Z]; [len] of a list is [Z.of_nat (length _)].
    - Everything the program obtains from outside (the file system and the
      XML parser, the network, the pseudo random generator, the process
      environment, the module globals) is a field of [Env].
    - Everything the program does to the outside (log records, outbound
      HTTP requests, draws consumed from the generator) is recorded in
      [World]. *)

From Stdlib Require Import ZArith String Ascii DecimalString List Lia.
From stdpp Require Import base list strings.

#[local] Set Warnings "-register-all".

Open Scope string_scope.
Open Scope list_scope.
Open Scope Z_scope.

(** ** Python strings *)

Module PyStr.

(** Truth value of a [str]: false exactly for the empty string. *)
Definition truthy (s : string) : bool :=
  match s with
  | EmptyString => false
  | String _ _ => true
  end.

(** Truth value of an optional [str] ([None] is false). *)
Definition truthy_opt (o : option string) : bool :=
  match o with
  | None => false
  | Some s => truthy s
  end.

(** [str(n)] for an [int]. *)
Definition of_Z (z : Z) : string := NilZero.string_of_int (Z.to_int z).

(** [s.split(sep)] for a one-character separator: cut at every
    occurrence; the result is never empty (["".split("/") == [""]]). *)
Fixpoint split (sep : ascii) (s : string) : list string :=
  match s with
  | EmptyString => [EmptyString]
  | String c rest =>
      if Ascii.eqb c sep then EmptyString :: split sep rest
      else match split sep rest with
           | [] => [String c EmptyString]
           | w :: ws => String c w :: ws
           end
  end.

Definition bytes (l : list nat) : list ascii := map ascii_of_nat l.

(** The characters for which [str.isspace] holds, each as its UTF-8
    byte sequence: U+0009..U+000D, U+001C..U+0020, U+0085, U+00A0,
    U+1680, U+2000..U+200A, U+2028, U+2029, U+202F, U+205F, U+3000. *)
Definition whitespace : list (list ascii) :=
  map bytes
    [ [9]; [10]; [11]; [12]; [13]; [28]; [29]; [30]; [31]; [32];
      [194; 133]; [194; 160]; [225; 154; 128];
      [226; 128; 128]; [226; 128; 129]; [226; 128; 130]; [226; 128; 131];
      [226; 128; 132]; [226; 128; 133]; [226; 128; 134]; [226; 128; 135];
      [226; 128; 136]; [226; 128; 137]; [226; 128; 138];
      [226; 128; 168]; [226; 128; 169]; [226; 128; 175];
      [226; 129; 159]; [227; 128; 128] ]%nat.

Fixpoint is_prefix (p l : list ascii) : bool :=
  match p, l with
  | [], _ => true
  | _ :: _, [] => false
  | a :: p', b :: l' => Ascii.eqb a b && is_prefix p' l'
  end.

(** Drop leading members of [ws]; every round removes at least one
    byte, so [length l] rounds are enough. *)
Fixpoint lstrip_rounds (ws : list (list ascii)) (rounds : nat)
         (l : list ascii) : list ascii :=
  match rounds with
  | O => l
  | S rounds' =>
      match List.find (fun w => is_prefix w l) ws with
      | Some w => lstrip_rounds ws rounds' (drop (length w) l)
      | None => l
      end
  end.

Definition lstrip_with (ws : list (list ascii)) (l : list ascii) :=
  lstrip_rounds ws (length l) l.

(** [s.strip()]: whitespace removed at both ends.  The right end is
    handled on the reversed byte sequence with reversed encodings. *)
Definition strip (s : string) : string :=
  let l := lstrip_with whitespace (list_ascii_of_string s) in
  string_of_list_ascii
    (rev (lstrip_with (map (@rev ascii) whitespace) (rev l))).

End PyStr.

(** ** Exceptions, JSON values, XML elements *)

(** The subclasses of [Exception] the program distinguishes in its
    handlers or can raise itself; [str(e)] is the carried message. *)
Inductive exn : Type :=
| ParseError (msg : string)         (* xml.etree.ElementTree.ParseError *)
| FileNotFoundError (msg : string)
| RequestException (msg : string)   (* requests.RequestException and subclasses *)
| ValueError (msg : string)
| IndexError (msg : string)
| NameError (msg : string)
| OtherException (msg : string).    (* any other subclass of Exception *)

Definition str_of_exn (e : exn) : string :=
  match e with
  | ParseError m | FileNotFoundError m | RequestException m | ValueError m
  | IndexError m | NameError m | OtherException m => m
  end.

(** JSON values, as [json=] payloads and as decoded response bodies.  An
    object keeps its keys in insertion order, like a Python [dict]. *)
Inductive json : Type :=
| JNull
| JBool (b : bool)
| JNum (n : Z)
| JStr (s : string)
| JArr (items : list json)
| JObj (fields : list (string * json)).

(** [xml.etree.ElementTree.Element]: a tag, the text before the first
    child ([None] when there is none) and the children in document
    order. *)
Inductive Element : Type :=
| Elem (tag : string) (text : option string) (children : list Element).

Definition tag (e : Element) : string :=
  match e with Elem t _ _ => t end.
Definition text (e : Element) : option string :=
  match e with Elem _ x _ => x end.
Definition children (e : Element) : list Element :=
  match e with Elem _ _ cs => cs end.

Module ET.

(** [Element.iter(tag)]: the element itself if its tag matches, then the
    matching elements of each child's subtree, in document order. *)
Fixpoint iter (tg : string) (e : Element) : list Element :=
  match e with
  | Elem t _ cs =>
      (if String.eqb t tg then [e] else []) ++ flat_map (iter tg) cs
  end.

(** [root.findall('.//' + tag)]: [root.iter(tag)] without [root] itself,
    that is, every proper descendant with that tag, in document order. *)
Definition findall_descendants (tg : string) (root : Element) : list Element :=
  flat_map (iter tg) (children root).

(** [elem.find(tag)]: the first direct child with that tag, or [None]. *)
Definition find (tg : string) (e : Element) : option Element :=
  List.find (fun c => String.eqb (tag c) tg) (children e).

End ET.

(** ** Requests, responses, results *)

Record Request : Type := mkRequest {
  req_url : string;
  req_headers : list (string * string);
  req_json : json;
  req_timeout : Z
}.

(** What the program reads of a [requests.Response]: the status code, the
    body text and the outcome of [response.json()], which raises when the
    body is not a JSON document. *)
Record Response : Type := mkResponse {
  status_code : Z;
  resp_text : string;
  resp_json : exn + json
}.

(** The value stored under ['response'] in a result. *)
Inductive payload : Type :=
| Decoded (j : json)
| Raw (s : string).

(** The [dict] returned by [submit_urls]: ['status'] and ['message'] are
    always present, ['response'] only on the paths that saw a response. *)
Record Result : Type := mkResult {
  status : string;
  message : string;
  response : option payload
}.

Inductive Level : Type := INFO | WARNING | ERROR.

(** A log record: level and message; [log_arg] holds the result a
    message interpolates, where it does. *)
Record LogRecord : Type := mkLog {
  log_level : Level;
  log_msg : string;
  log_arg : option Result
}.

(** ** The pseudo-random generator *)

(** The generator behind [random], seen through the one method
    [random.sample] calls, [_randbelow]: the [i]-th call, asked for a
    value below [b], returns [raw i mod b].  (How the generator comes by
    that value, CPython by drawing [b.bit_length()] random bits until
    they make a number below [b], stays inside the generator; every
    sequence of values [_randbelow] returns on a run is of this form.)
    The generator is fair: whatever [n], every value below [n] comes up
    again after every point, and [next_at n start v] says at which call.
    [random.sample] leans on it: its loop "draw again while the position
    is taken" ends only because a position not yet taken is drawn at
    some point. *)
Record Generator : Type := mkGenerator {
  raw : nat -> nat;
  next_at : nat -> nat -> nat -> nat;
  fair : forall n start v : nat,
    (v < n)%nat ->
    (start <= next_at n start v)%nat /\ (raw (next_at n start v) mod n = v)%nat
}.

(** A generator that first outputs [script], then counts [0, 1, 2, ...]. *)
Definition scripted_raw (script : list nat) (t : nat) : nat :=
  match script !! t with
  | Some x => x
  | None => (t - length script)%nat
  end.

Definition scripted_next (script : list nat) (n start v : nat) : nat :=
  let s := Nat.max start (length script) in
  (s + (v + n - (s - length script) mod n) mod n)%nat.

Lemma scripted_fair (script : list nat) (n start v : nat) :
  (v < n)%nat ->
  (start <= scripted_next script n start v)%nat /\
  (scripted_raw script (scripted_next script n start v) mod n = v)%nat.
Proof.
  intros Hv. unfold scripted_next, scripted_raw.
  set (s := Nat.max start (length script)).
  set (a := (s - length script)%nat).
  set (d := ((v + n - a mod n) mod n)%nat).
  split; [lia |].
  rewrite (lookup_ge_None_2 script (s + d)) by lia.
  replace (s + d - length script)%nat with (a + d)%nat by lia.
  unfold d. rewrite Nat.Div0.add_mod_idemp_r.
  rewrite <- Nat.Div0.add_mod_idemp_l.
  assert (a mod n < n)%nat by (apply Nat.mod_upper_bound; lia).
  replace (a mod n + (v + n - a mod n))%nat with (v + 1 * n)%nat by lia.
  rewrite Nat.Div0.mod_add. apply Nat.mod_small. exact Hv.
Qed.

Definition scripted (script : list nat) : Generator :=
  mkGenerator (scripted_raw script) (scripted_next script) (scripted_fair script).

(** ** The outside world *)

(** What the program obtains from outside. *)
Record Env : Type := mkEnv {
  (** [ET.parse(path).getroot()]: the root element, or the exception the
      file system or the XML parser raises. *)
  et_parse : string -> exn + Element;
  (** [session.post(url, json=..., timeout=...)]: the response, or the
      exception the transport raises. *)
  session_post : Request -> exn + Response;
  (** The generator behind [random]. *)
  rand : Generator;
  (** [os.getenv]. *)
  getenv : string -> option string;
  (** Whether the module-level name [logger] is bound.  Line 252,
      [logger:logging.Logger], is an annotation without a value and binds
      nothing; [main] assigns a local variable of the same name.  The
      name is bound only if an importing module assigns it. *)
  logger_bound : bool;
  (** [logging.FileHandler(path, encoding='utf-8')]: the exception it
      raises when the log file cannot be opened, if any. *)
  open_log_file : string -> option exn
}.

(** What the program does to the outside. *)
Record World : Type := mkWorld {
  log : list LogRecord;     (* records handed to the 'URLSubmitter' logger *)
  sent : list Request;      (* outbound HTTP calls, oldest first *)
  draws : nat               (* calls of the generator's [_randbelow] so far *)
}.

Definition world0 : World := mkWorld [] [] 0.

(** The same outside world with another generator. *)
Definition with_rand (env : Env) (rnd : Generator) : Env :=
  mkEnv (et_parse env) (session_post env) rnd (getenv env)
        (logger_bound env) (open_log_file env).

(** Computations that read [Env], update [World] and may raise. *)
Definition M (A : Type) : Type := Env -> World -> (exn + A) * World.

#[global] Instance M_ret : MRet M :=
  fun A (a : A) _ w => (inr a, w).

#[global] Instance M_bind : MBind M :=
  fun A B (k : A -> M B) (c : M A) env w =>
    match c env w with
    | (inl e, w') => (inl e, w')
    | (inr a, w') => k a env w'
    end.

Definition raise {A : Type} (e : exn) : M A :=
  fun _ w => (inl e, w).

(** [try: body / except Exception as e: handler e]. *)
Definition try_except {A : Type} (body : M A) (handler : exn -> M A) : M A :=
  fun env w =>
    match body env w with
    | (inl e, w') => handler e env w'
    | (inr a, w') => (inr a, w')
    end.

Definition emit (lvl : Level) (msg : string) (arg : option Result) : M unit :=
  fun _ w => (inr tt, mkWorld (log w ++ [mkLog lvl msg arg]) (sent w) (draws w)).

(** A call through the module-level name [logger]: a [NameError] when the
    name is unbound. *)
Definition global_logger (lvl : Level) (msg : string) : M unit :=
  fun env w =>
    if logger_bound env then emit lvl msg None env w
    else (inl (NameError "name 'logger' is not defined"), w).

(** [self.session.post(...)]: the call is recorded, whatever comes back. *)
Definition post (r : Request) : M Response :=
  fun env w => (session_post env r, mkWorld (log w) (sent w ++ [r]) (draws w)).

Definition read_env (name : string) : M (option string) :=
  fun env w => (inr (getenv env name), w).

Definition parse_file (path : string) : M Element :=
  fun env w => (et_parse env path, w).

(** ** [random.sample] *)

Definition len {A : Type} (l : list A) : Z := Z.of_nat (length l).

Module Random.

Section Sample.

Context {A : Type}.

(** The outputs of the generator, numbered from this call of
    [random.sample] on. *)
Variable rnd : nat -> nat.

(** [randbelow(b)] at the [i]-th draw: a value below [b]. *)
Definition randbelow (i b : nat) : nat := (rnd i mod b)%nat.

(** The first branch of [random.sample], taken for a population of at
    most [setsize] elements: the selection loop on a copy [pool] of the
    population, for [steps] more rounds from round [i] on:
<<
    for i in range(k):
        j = randbelow(n - i)
        result[i] = pool[j]
        pool[j] = pool[n - i - 1]
>>
    [None] stands for an index out of range. *)
Fixpoint select (n : nat) (pool : list A) (i steps : nat) : option (list A) :=
  match steps with
  | O => Some []
  | S steps' =>
      let j := randbelow i (n - i) in
      match pool !! j, pool !! (n - i - 1)%nat with
      | Some x, Some y =>
          match select n (<[j:=y]> pool) (S i) steps' with
          | Some r => Some (x :: r)
          | None => None
          end
      | _, _ => None
      end
  end.

(** [j in selected]. *)
Definition is_selected (j : nat) (selected : list nat) : bool :=
  existsb (Nat.eqb j) selected.

(** The inner loop of the second branch,
<<
    j = randbelow(n)
    while j in selected:
        j = randbelow(n)
>>
    from the [t]-th output of the generator on: the number of the output
    that is accepted, looking at [fuel] outputs after the first at most. *)
Fixpoint first_fresh (n : nat) (selected : list nat) (t fuel : nat) : nat :=
  match fuel with
  | O => t
  | S fuel' =>
      if is_selected (rnd t mod n) selected
      then first_fresh n selected (S t) fuel'
      else t
  end.

End Sample.

(** [_ceil(_log(m, 4))] for an integer [m >= 2]: the least [e] with
    [m <= 4 ^ e].  (CPython computes it in floating point.  It is asked
    for [m = 3 * k] only, which is never a power of 4, so that rounding
    could matter only for a [k] so large that [3 * k] and a power of 4
    differ by less than the precision of a float; the two agree for every
    [k] up to two million, by enumeration.) *)
Definition ceil_log4 (m : Z) : Z := (Z.log2_up m + 1) / 2.

(** The population size up to which the first branch is taken:
<<
    setsize = 21
    if k > 5:
        setsize += 4 ** _ceil(_log(k * 3, 4))
>>
*)
Definition setsize (k : Z) : Z :=
  if 5 <? k then 21 + 4 ^ ceil_log4 (k * 3) else 21.

(** The position below [n] that the table of positions shows first as not
    selected, if there is one. *)
Definition unselected (n : nat) (selected : list nat) : option nat :=
  List.find (fun v => negb (is_selected v selected)) (seq 0 n).

(** How many outputs after the [t]-th the inner loop can need: the
    generator outputs a position that is not selected at [next_at], and
    the loop has stopped by then. *)
Definition patience (g : Generator) (n : nat) (selected : list nat) (t : nat) : nat :=
  match unselected n selected with
  | Some v => (next_at g n t v - t)%nat
  | None => O
  end.

(** The second branch of [random.sample], for [steps] more rounds, from
    the [t]-th output of the generator on:
<<
    selected = set()
    for i in range(k):
        j = randbelow(n)
        while j in selected:
            j = randbelow(n)
        selected_add(j)
        result[i] = population[j]
>>
    It returns the result and the number of the first output not
    consumed; [None] stands for an index out of range. *)
Fixpoint select_set {A : Type} (g : Generator) (n : nat) (population : list A)
         (selected : list nat) (t steps : nat) : option (list A * nat) :=
  match steps with
  | O => Some ([], t)
  | S steps' =>
      let a := first_fresh (raw g) n selected t (patience g n selected t) in
      let j := (raw g a mod n)%nat in
      match population !! j with
      | Some x =>
          match select_set g n population (j :: selected) (S a) steps' with
          | Some (r, t') => Some (x :: r, t')
          | None => None
          end
      | None => None
      end
  end.

(** [random.sample(population, k)] from the [t]-th output of the
    generator on: the sample, and the number of the first output it did
    not consume.
<<
    n = len(population)
    if not 0 <= k <= n:
        raise ValueError("Sample larger than population or is negative")
    result = [None] * k
    setsize = ...
    if n <= setsize:
        pool = list(population)
        ...                       # first branch, [select]: k outputs
    else:
        ...                       # second branch, [select_set]
    return result
>>
    An output of the generator stands for one call of [randbelow]. *)
Definition sample {A : Type} (g : Generator) (t : nat) (population : list A) (k : Z)
  : exn + (list A * nat) :=
  let n := length population in
  if (0 <=? k) && (k <=? Z.of_nat n) then
    if Z.of_nat n <=? setsize k then
      match select (fun i => raw g (t + i)%nat) n population 0 (Z.to_nat k) with
      | Some r => inr (r, (t + Z.to_nat k)%nat)
      | None => inl (IndexError "list index out of range")
      end
    else
      match select_set g n population [] t (Z.to_nat k) with
      | Some rt => inr rt
      | None => inl (IndexError "list index out of range")
      end
  else inl (ValueError "Sample larger than population or is negative").

End Random.

(** [random.sample] on the process-wide generator: it goes on from the
    first output not consumed yet, and consumes as many as its loops
    draw: one per entry on a short list, one more for every collision on
    a long one. *)
Definition random_sample (population : list string) (k : Z) : M (list string) :=
  fun env w =>
    match Random.sample (rand env) (draws w) population k with
    | inr (r, t) => (inr r, mkWorld (log w) (sent w) t)
    | inl e => (inl e, w)
    end.

(** ** The submitters *)

Definition missing_key : Result :=
  mkResult "error" "缺少API密钥，请设置BING_API_KEY环境变量或手动提交" None.

Module BingSubmitter.

Definition base_url : string :=
  "https://ssl.bing.com/webmaster/api.svc/json/SubmitUrlbatch".

Definition headers : list (string * string) :=
  [("Content-Type", "application/json; charset=utf-8"); ("Host", "ssl.bing.com")].

(** The JSON body of the batch request. *)
Definition data (site_url : string) (url_list : list string) : json :=
  JObj [("siteUrl", JStr site_url); ("urlList", JArr (JStr <$> url_list))].

(** [BingSubmitter.submit_urls(urls, site_url, limit=10)], lines 79-134. *)
Definition submit_urls (api_key : option string) (urls : list string)
           (site_url : string) (limit : Z) : M Result :=
  match api_key with
  | None => mret missing_key
  | Some key =>
      if negb (PyStr.truthy key) then mret missing_key
      else
        try_except
          (url_list ← random_sample urls (Z.min (len urls) limit);
           let submit_url := base_url +:+ "?apikey=" +:+ key in
           response ← post (mkRequest submit_url headers (data site_url url_list) 20);
           if status_code response =? 200 then
             match resp_json response with
             | inr body =>
                 mret (mkResult "success"
                         ("成功提交 " +:+ PyStr.of_Z (len urls) +:+ " 个URL到必应")
                         (Some (Decoded body)))
             | inl e => raise e
             end
           else
             mret (mkResult "error"
                     ("提交失败，状态码: " +:+ PyStr.of_Z (status_code response))
                     (Some (Raw (resp_text response)))))
          (fun e =>
             match e with
             | RequestException m =>
                 mret (mkResult "error" ("网络请求错误: " +:+ m) None)
             | _ =>
                 mret (mkResult "error" ("提交过程中发生错误: " +:+ str_of_exn e) None)
             end)
  end.

End BingSubmitter.

Module IndexNowSubmitter.

Definition base_url : string := "https://api.indexnow.org/IndexNow".

Definition headers : list (string * string) :=
  [("Content-Type", "application/json; charset=utf-8"); ("Host", "api.indexnow.org")].

(** The JSON body of the push request. *)
Definition data (key site_url : string) (urls : list string) : json :=
  JObj [("host", JStr site_url);
        ("key", JStr key);
        ("keyLocation", JStr (site_url +:+ "/" +:+ key +:+ ".txt"));
        ("urlList", JArr (JStr <$> urls))].

(** [IndexNowSubmitter.submit_urls(urls, site_url)], lines 149-203. *)
Definition submit_urls (api_key : option string) (urls : list string)
           (site_url : string) : M Result :=
  match api_key with
  | None => mret missing_key
  | Some key =>
      if negb (PyStr.truthy key) then mret missing_key
      else
        try_except
          (response ← post (mkRequest base_url headers (data key site_url urls) 20);
           if (status_code response =? 200) || (status_code response =? 202) then
             mret (mkResult "success"
                     ("成功提交, 状态码: " +:+ PyStr.of_Z (status_code response))
                     (Some (Raw (resp_text response))))
           else
             mret (mkResult "error"
                     ("提交失败，状态码: " +:+ PyStr.of_Z (status_code response))
                     (Some (Raw (resp_text response)))))
          (fun e =>
             match e with
             | RequestException m =>
                 mret (mkResult "error" ("网络请求错误: " +:+ m) None)
             | _ =>
                 mret (mkResult "error" ("提交过程中发生错误: " +:+ str_of_exn e) None)
             end)
  end.

End IndexNowSubmitter.

(** ** The sitemap parser *)

Module SitemapParser.

(** One round of the loop at lines 38-41: the text of the item's first
    [link] child is appended, stripped, when that child exists and its
    text is neither [None] nor empty. *)
Definition visit (urls : list string) (item : Element) : list string :=
  match ET.find "link" item with
  | Some link_element =>
      match text link_element with
      | Some t => if PyStr.truthy t then urls ++ [PyStr.strip t] else urls
      | None => urls
      end
  | None => urls
  end.

(** The whole loop, from [urls = []]. *)
Definition collect (root : Element) : list string :=
  fold_left visit (ET.findall_descendants "item" root) [].

(** [SitemapParser.parse_rss_sitemap], lines 23-54.  Both logging calls
    go through the module-level name [logger]. *)
Definition parse_rss_sitemap (sitemap_file : string) : M (list string) :=
  try_except
    (root ← parse_file sitemap_file;
     let urls := collect root in
     global_logger INFO
       ("成功解析站点地图，找到 " +:+ PyStr.of_Z (len urls) +:+ " 个URL");;
     mret urls)
    (fun e =>
       match e with
       | ParseError m =>
           global_logger ERROR ("XML解析错误: " +:+ m);; mret []
       | FileNotFoundError _ =>
           global_logger ERROR ("文件未找到: " +:+ sitemap_file);; mret []
       | _ =>
           global_logger ERROR ("解析站点地图时发生错误: " +:+ str_of_exn e);;
           mret []
       end).

End SitemapParser.

(** ** Orchestration *)

(** [l[i]] for a non-negative literal index. *)
Definition getitem {A : Type} (l : list A) (i : nat) : exn + A :=
  match l !! i with
  | Some x => inr x
  | None => inl (IndexError "list index out of range")
  end.

(** Line 281:
    [urls[0].split('/')[0] + '//' + urls[0].split('/')[2]]. *)
Definition site_url_of (urls : list string) : exn + string :=
  match getitem urls 0 with
  | inl e => inl e
  | inr first =>
      match getitem (PyStr.split "/" first) 0 with
      | inl e => inl e
      | inr scheme =>
          match getitem (PyStr.split "/" first) 2 with
          | inl e => inl e
          | inr host => inr (scheme +:+ "//" +:+ host)
          end
      end
  end.

Definition lift {A : Type} (r : exn + A) : M A :=
  fun _ w => (r, w).

(** The command line after [argparse]. *)
Record Args : Type := mkArgs {
  arg_sitemap : string;
  arg_log : option string
}.

(** [Logger(log_file=...)]: a file handler is opened when a log file is
    given. *)
Definition Logger_init (log_file : option string) : M unit :=
  match log_file with
  | Some path =>
      if PyStr.truthy path then
        fun env w =>
          match open_log_file env path with
          | Some e => (inl e, w)
          | None => (inr tt, w)
          end
      else mret tt
  | None => mret tt
  end.

(** [match result['status']: case 'success': ... case 'error': ...]. *)
Definition report (result : Result) : M unit :=
  if String.eqb (status result) "success" then
    emit INFO "提交成功: " (Some result)
  else if String.eqb (status result) "error" then
    emit ERROR "提交失败: " (Some result)
  else mret tt.

(** [main], lines 254-299, from the parsed arguments on.  Its own
    [logger] is a local variable, always bound. *)
Definition main (args : Args) : M unit :=
  Logger_init (arg_log args);;
  urls ← SitemapParser.parse_rss_sitemap (arg_sitemap args);
  match urls with
  | [] => emit WARNING "未找到任何URL" None
  | _ :: _ =>
      bing_api_key ← read_env "BING_API_KEY";
      indexNow_api_key ← read_env "INDEXNOW_API_KEY";
      if negb (PyStr.truthy_opt bing_api_key && PyStr.truthy_opt indexNow_api_key) then
        emit ERROR "未获取到API密钥, 请设置BING_API_KEY和INDEXNOW_API_KEY环境变量" None
      else
        site_url ← lift (site_url_of urls);
        emit INFO ("网站URL: " +:+ site_url) None;;
        emit INFO "自动提交到必应搜索引擎..." None;;
        result ← BingSubmitter.submit_urls bing_api_key urls site_url 10;
        report result;;
        emit INFO "自动提交到IndexNow..." None;;
        result ← IndexNowSubmitter.submit_urls indexNow_api_key urls site_url;
        report result
  end.

(** ** Sampling by position *)

(** [r] lists, in order, the elements of [population] at the positions
    [ps]. *)
Definition at_positions {A : Type} (population : list A) (ps : list nat)
           (r : list A) : Prop :=
  Forall2 (fun p x => population !! p = Some x) ps r.

(** The positions the selection loop of the first branch picks among
    [n], in [k] rounds: the loop run on the pool of positions
    [0, 1, ..., n-1]. *)
Definition drawn_positions (rnd : nat -> nat) (n k : nat) : option (list nat) :=
  Random.select rnd n (seq 0 n) 0 k.

(** The positions [random.sample] picks among [n] for a sample of [k],
    from the [t]-th output of [g] on: [random.sample] run on the
    population [0, 1, ..., n-1] of positions. *)
Definition sampled_positions (g : Generator) (t n : nat) (k : Z) : option (list nat) :=
  match Random.sample g t (seq 0 n) k with
  | inr (ps, _) => Some ps
  | inl _ => None
  end.

(** [ps] is an arrangement of [k] of the positions below [n]: [k]
    positions, no position twice. *)
Definition arrangement (n : nat) (k : Z) (ps : list nat) : Prop :=
  NoDup ps /\ Forall (fun p => (p < n)%nat) ps /\ Z.of_nat (length ps) = k.

(** ** Test fixtures: a small sitemap and a cooperative outside world *)

Module Fixture.

(** [<item><title>x</title><link>t</link></item>]; the [link] element is
    empty ([<link/>]) for [None]. *)
Definition item (t : option string) : Element :=
  Elem "item" None [Elem "title" (Some "x") []; Elem "link" t []].

Definition rss (items : list Element) : Element :=
  Elem "rss" None [Elem "channel" None (Elem "title" (Some "site") [] :: items)].

Definition three_urls : list string :=
  ["https://a.example/1"; "https://a.example/2"; "https://a.example/3"].

Definition ok_response : Response :=
  mkResponse 200 "{}" (inr (JObj [])).

(** Opening [sitemap.xml] gives [file] (a root element, or what the
    parser raises); no other file exists.  Every request is answered by
    [reply]; the generator outputs [0] thirty-two times, then counts from
    [0]; both API keys are set to
    [k]; [bound] says whether the module-level [logger] is bound. *)
Definition env (bound : bool) (file : exn + Element) (reply : exn + Response) : Env :=
  mkEnv
    (fun path =>
       if String.eqb path "sitemap.xml" then file
       else inl (FileNotFoundError "[Errno 2] No such file or directory"))
    (fun _ => reply)
    (scripted (repeat 0%nat 32))
    (fun name =>
       if String.eqb name "BING_API_KEY" || String.eqb name "INDEXNOW_API_KEY"
       then Some "k" else None)
    bound
    (fun _ => None).

Definition sitemap3 : Element :=
  rss (map (fun u => item (Some u)) three_urls).

End Fixture.

(** ** Counting separators, whitespace at the ends *)

(** Occurrences of the byte [c] in [s]. *)
Fixpoint count_char (c : ascii) (s : string) : nat :=
  match s with
  | EmptyString => 0%nat
  | String a rest => ((if Ascii.eqb a c then 1 else 0) + count_char c rest)%nat
  end.

(** [s] starts (ends) with a character for which [str.isspace] holds. *)
Definition starts_with_whitespace (s : string) : bool :=
  existsb (fun w => PyStr.is_prefix w (list_ascii_of_string s)) PyStr.whitespace.

Definition ends_with_whitespace (s : string) : bool :=
  existsb (fun w => PyStr.is_prefix (rev w) (rev (list_ascii_of_string s)))
          PyStr.whitespace.

(** ** The logger, lines 205-250 *)

Module Logging.

(** What the formatters read of a [logging.LogRecord].  [asctime] is the
    creation time rendered with [datefmt='%Y-%m-%d %H:%M:%S']; both
    formatters use that same [datefmt]. *)
Record Record_ : Type := mkRecord {
  levelno : Z;
  levelname : string;
  asctime : string;
  msg : string
}.

(** [colorama]'s codes: [CSI] is ESC followed by an opening bracket. *)
Definition CSI : string := String "027" "[".
Definition Fore_BLUE : string := CSI +:+ "34m".
Definition Fore_GREEN : string := CSI +:+ "32m".
Definition Fore_YELLOW : string := CSI +:+ "33m".
Definition Fore_RED : string := CSI +:+ "31m".
Definition Fore_MAGENTA : string := CSI +:+ "35m".
Definition Style_RESET_ALL : string := CSI +:+ "0m".

(** [ColorFormatter.LEVEL_COLORS], lines 208-214. *)
Definition LEVEL_COLORS : list (string * string) :=
  [("DEBUG", Fore_BLUE);
   ("INFO", Fore_GREEN);
   ("WARNING", Fore_YELLOW);
   ("ERROR", Fore_RED);
   ("CRITICAL", Fore_MAGENTA)].

(** [d.get(key)] on a [dict] written as its list of items. *)
Fixpoint dict_get (key : string) (d : list (string * string)) : option string :=
  match d with
  | [] => None
  | (k, v) :: rest => if String.eqb k key then Some v else dict_get key rest
  end.

(** [logging.Formatter.format] for the format string
    ['[%(asctime)s-%(levelname)s]: %(message)s'] (no exception or stack
    information is ever attached by this program). *)
Definition base_format (r : Record_) : string :=
  "[" +:+ asctime r +:+ "-" +:+ levelname r +:+ "]: " +:+ msg r.

(** [ColorFormatter.format], lines 216-220: the record's [levelname] is
    overwritten when it is a key of [LEVEL_COLORS]; the record is shared
    with the handlers that run afterwards, so the function returns it
    beside the line. *)
Definition color_format (r : Record_) : string * Record_ :=
  let r' :=
    match dict_get (levelname r) LEVEL_COLORS with
    | Some color =>
        mkRecord (levelno r) (color +:+ levelname r +:+ Style_RESET_ALL)
                 (asctime r) (msg r)
    | None => r
    end in
  (base_format r', r').

(** The plain [logging.Formatter] of the file handler. *)
Definition plain_format (r : Record_) : string * Record_ :=
  (base_format r, r).

(** What the name [sys.stderr] can stand for: the standard error of the
    process, or the wrapper [colorama] has put around what the name stood
    for before.  A wrapper passes on what is written to it as [colorama]
    sees fit (it drops the colour codes when the stream below is not a
    terminal, turns them into console calls on Windows, and appends a
    reset under [autoreset]); lines are followed here up to the stream
    they are written to, not through the wrappers. *)
Inductive Stream : Type :=
| Stderr
| Wrapped (inner : Stream).

Inductive Sink : Type :=
| Console (stream : Stream)  (* StreamHandler(stream) *)
| LogFile (path : string).   (* FileHandler(path, encoding='utf-8') *)

Inductive FormatterKind : Type := Plain | Color.

Record Handler : Type := mkHandler {
  sink : Sink;
  handler_level : Z;
  formatter : FormatterKind
}.

(** The logger named ['URLSubmitter']: one object per process, whatever
    number of times [logging.getLogger] is called. *)
Record LoggerObj : Type := mkLogger {
  logger_level : Z;
  handlers : list Handler
}.

(** What [Logger.__init__] changes in the process: what [sys.stderr]
    stands for, and the logger named ['URLSubmitter']. *)
Record Process : Type := mkProcess {
  sys_stderr : Stream;
  url_submitter : LoggerObj
}.

(** The process before anything configured it; the level [0] is
    [NOTSET]. *)
Definition fresh : Process := mkProcess Stderr (mkLogger 0 []).

Definition DEBUG_no : Z := 10.
Definition INFO_no : Z := 20.
Definition WARNING_no : Z := 30.
Definition ERROR_no : Z := 40.
Definition CRITICAL_no : Z := 50.

(** [colorama.init(autoreset=True)], line 222: with [autoreset] set the
    wrapper is installed on every call, around whatever [sys.stderr]
    stands for at that moment (the same happens to [sys.stdout], to which
    this program never writes). *)
Definition colorama_init (stderr : Stream) : Stream := Wrapped stderr.

(** [Logger.__init__(level, log_file)], lines 221-247, on the process as
    it stands: [sys.stderr] is wrapped, the level is set, the console
    handler is made for the stream [sys.stderr] now stands for, then the
    file handler is added when a log file is given, then the console
    handler.  [open_log_file] says what [logging.FileHandler] raises, if
    anything; the exception leaves the constructor, after the wrapping
    and the level, before any handler is added. *)
Definition init (open_log_file : string -> option exn)
           (level : Z) (log_file : option string) (p : Process)
  : option exn * Process :=
  let stderr := colorama_init (sys_stderr p) in
  let lg := url_submitter p in
  let console_handler := mkHandler (Console stderr) level Color in
  let file_handler :=
    match log_file with
    | Some path =>
        if PyStr.truthy path then
          match open_log_file path with
          | Some e => inl e
          | None => inr [mkHandler (LogFile path) level Plain]
          end
        else inr []
    | None => inr []
    end in
  match file_handler with
  | inl e => (Some e, mkProcess stderr (mkLogger level (handlers lg)))
  | inr hs =>
      (None, mkProcess stderr (mkLogger level ((handlers lg ++ hs) ++ [console_handler])))
  end.

Definition run_formatter (k : FormatterKind) (r : Record_) : string * Record_ :=
  match k with
  | Plain => plain_format r
  | Color => color_format r
  end.

(** [Logger.callHandlers]: the handlers run in the order they were added,
    each on the record as the previous ones left it; a handler emits the
    line its formatter returns when the record's level reaches its
    own. *)
Fixpoint call_handlers (hs : list Handler) (r : Record_) : list (Sink * string) :=
  match hs with
  | [] => []
  | h :: rest =>
      if handler_level h <=? levelno r then
        let '(line, r') := run_formatter (formatter h) r in
        (sink h, line) :: call_handlers rest r'
      else call_handlers rest r
  end.

(** [getEffectiveLevel]: a logger left at [NOTSET] takes the level of the
    root logger, [WARNING] as long as nothing configures it. *)
Definition effective_level (lg : LoggerObj) : Z :=
  if logger_level lg =? 0 then WARNING_no else logger_level lg.

(** [logger.log(level, msg)] ([info], [warning], [error]...) on the
    logger named ['URLSubmitter']: nothing happens below the effective
    level; a logger without any handler falls back on
    [logging.lastResort], which writes the bare message of a record at
    [WARNING] or above to what [sys.stderr] stands for at that moment. *)
Definition log_call (p : Process) (r : Record_) : list (Sink * string) :=
  let lg := url_submitter p in
  if effective_level lg <=? levelno r then
    match handlers lg with
    | [] => if WARNING_no <=? levelno r then [(Console (sys_stderr p), msg r)] else []
    | hs => call_handlers hs r
    end
  else [].

(** The record [logger.info], [logger.warning] and [logger.error] make. *)
Definition record_of (l : Level) (time message : string) : Record_ :=
  match l with
  | INFO => mkRecord INFO_no "INFO" time message
  | WARNING => mkRecord WARNING_no "WARNING" time message
  | ERROR => mkRecord ERROR_no "ERROR" time message
  end.

End Logging.

(** * Properties *)

(** ** Python strings on examples *)

Example strip_ex1 :
  PyStr.strip (String "009" " https://a.example/x " +:+ String "010" "")
  = "https://a.example/x".
Proof. reflexivity. Qed.

Example strip_ex2 : PyStr.strip "   " = "".
Proof. reflexivity. Qed.

Example split_ex1 :
  PyStr.split "/" "https://example.com/a/b"
  = ["https:"; ""; "example.com"; "a"; "b"].
Proof. reflexivity. Qed.

Example split_ex2 : PyStr.split "/" "" = [""].
Proof. reflexivity. Qed.

(** A no-break space (U+00A0, bytes C2 A0) is whitespace for [str.strip]. *)
Example strip_ex3 :
  PyStr.strip (String "194" (String "160" "x")) = "x".
Proof. reflexivity. Qed.


(** The rounds given to [lstrip_with] are enough: no member of [ws] is a
    prefix of what it returns. *)
Lemma is_prefix_length (p l : list ascii) :
  PyStr.is_prefix p l = true -> (length p <= length l)%nat.
Proof.
  revert l; induction p as [|a p IH]; intros [|b l]; simpl; try done; [lia|].
  intros [_ H]%andb_true_iff. apply IH in H. lia.
Qed.

Lemma lstrip_rounds_done (ws : list (list ascii)) (rounds : nat) :
  Forall (fun w => w <> []) ws ->
  forall l, (length l <= rounds)%nat ->
            List.find (fun w => PyStr.is_prefix w (PyStr.lstrip_rounds ws rounds l)) ws
            = None.
Proof.
  intros Hws. induction rounds as [|rounds IH]; intros l Hl; simpl.
  - destruct (List.find _ ws) as [w|] eqn:Hf; [|done].
    apply find_some in Hf as [Hin Hp]. apply is_prefix_length in Hp.
    rewrite Forall_forall in Hws. apply list_elem_of_In, Hws in Hin.
    destruct w; [done | simpl in *; lia].
  - destruct (List.find (fun w => PyStr.is_prefix w l) ws) as [w|] eqn:Hf; [|done].
    apply IH. apply find_some in Hf as [Hin Hp]. apply is_prefix_length in Hp.
    rewrite Forall_forall in Hws. apply list_elem_of_In, Hws in Hin.
    rewrite length_drop. destruct w; [done | simpl in *; lia].
Qed.

Lemma lstrip_with_done (ws : list (list ascii)) (l : list ascii) :
  Forall (fun w => w <> []) ws ->
  List.find (fun w => PyStr.is_prefix w (PyStr.lstrip_with ws l)) ws = None.
Proof. intros Hws. by apply lstrip_rounds_done. Qed.

Lemma whitespace_nonempty : Forall (fun w => w <> []) PyStr.whitespace.
Proof. unfold PyStr.whitespace. simpl. repeat constructor; discriminate. Qed.

(** Once stripped on the left, a string starts with no whitespace. *)
Lemma lstrip_no_leading_whitespace (l : list ascii) :
  List.find (fun w => PyStr.is_prefix w (PyStr.lstrip_with PyStr.whitespace l))
            PyStr.whitespace
  = None.
Proof. apply lstrip_with_done, whitespace_nonempty. Qed.

(** ** [findall] and [find] on examples *)

(** Items are found at any depth, nested ones included, in document
    order; the root itself is not among them. *)
Example findall_ex :
  map text
      (ET.findall_descendants
         "item"
         (Elem "item" (Some "root") [
            Elem "channel" None [
              Elem "item" (Some "1") [Elem "item" (Some "1.1") []];
              Elem "other" None [Elem "item" (Some "2") []]];
            Elem "item" (Some "3") []]))
  = [Some "1"; Some "1.1"; Some "2"; Some "3"].
Proof. reflexivity. Qed.

(** [find] looks at direct children only and takes the first match. *)
Example find_ex :
  ET.find "link" (Elem "item" None [
                    Elem "guid" None [Elem "link" (Some "deep") []];
                    Elem "link" (Some "first") [];
                    Elem "link" (Some "second") []])
  = Some (Elem "link" (Some "first") []).
Proof. reflexivity. Qed.

(** ** [random.sample]: its two branches *)

Module RandomFacts.

Import Random.

(** Overwriting slot [j] with [y] and setting the old content aside
    keeps the same elements. *)
Lemma insert_aside {A : Type} (l : list A) (j : nat) (x y : A) :
  l !! j = Some x -> <[j:=y]> l ++ [x] ≡ₚ l ++ [y].
Proof.
  revert j; induction l as [|a l IH]; intros [|j] Hj; simplify_eq/=.
  - rewrite <- !Permutation_cons_append. apply perm_swap.
  - f_equiv. by apply IH.
Qed.

(** One round of the loop: the live prefix shrinks by one and the chosen
    element is what left it. *)
Lemma round_keeps_elements {A : Type} (pool : list A) (j m : nat) (x y : A) :
  (j <= m)%nat -> pool !! j = Some x -> pool !! m = Some y ->
  take m (<[j:=y]> pool) ++ [x] ≡ₚ take (S m) pool.
Proof.
  intros Hjm Hj Hm. rewrite (take_S_r _ _ _ Hm).
  destruct (decide (j = m)) as [->|Hne].
  - rewrite take_insert_ge by lia.
    assert (x = y) as -> by congruence. done.
  - rewrite take_insert_lt by lia.
    apply insert_aside. rewrite lookup_take_lt by lia. done.
Qed.

Lemma randbelow_lt (rnd : nat -> nat) (i b : nat) :
  (0 < b)%nat -> (randbelow rnd i b < b)%nat.
Proof. intros Hb. unfold randbelow. apply Nat.mod_upper_bound. lia. Qed.

(** The loop never indexes out of range, yields one element per round,
    and the result together with what remains live in the pool is the
    live part of the pool it started from. *)
Lemma select_total {A : Type} (rnd : nat -> nat) (n steps : nat) :
  forall (pool : list A) (i : nat),
    length pool = n -> (i + steps <= n)%nat ->
    exists r rest,
      select rnd n pool i steps = Some r
      /\ length r = steps
      /\ r ++ rest ≡ₚ take (n - i) pool.
Proof.
  induction steps as [|steps IH]; intros pool i Hlen Hle; simpl.
  - exists [], (take (n - i) pool). by rewrite app_nil_l.
  - assert (Hj : (randbelow rnd i (n - i) < n - i)%nat)
      by (apply randbelow_lt; lia).
    generalize dependent (randbelow rnd i (n - i)); intros j Hj.
    destruct (lookup_lt_is_Some_2 pool j) as [x Hx]; [lia|].
    destruct (lookup_lt_is_Some_2 pool (n - i - 1)) as [y Hy]; [lia|].
    rewrite Hx, Hy.
    destruct (IH (<[j:=y]> pool) (S i)) as (r & rest & Hr & Hlr & Hp);
      [by rewrite length_insert | lia |].
    rewrite Hr. exists (x :: r), rest. split; [done|]. split; [simpl; lia|].
    simpl. rewrite Hp.
    replace (n - S i)%nat with (n - i - 1)%nat by lia.
    rewrite Permutation_cons_append.
    transitivity (take (S (n - i - 1)) pool).
    + apply round_keeps_elements; [lia|done..].
    + by replace (S (n - i - 1)) with (n - i)%nat by lia.
Qed.

(** The loop only moves elements around: it commutes with relabelling. *)
Lemma select_fmap {A B : Type} (f : A -> B) (rnd : nat -> nat) (n steps : nat) :
  forall (pool : list A) (i : nat),
    select rnd n (f <$> pool) i steps
    = fmap (M:=list) f <$> select rnd n pool i steps.
Proof.
  induction steps as [|steps IH]; intros pool i; simpl; [done|].
  rewrite !list_lookup_fmap.
  destruct (pool !! randbelow rnd i (n - i)) as [x|]; simpl; [|done].
  destruct (pool !! (n - i - 1)%nat) as [y|]; simpl; [|done].
  rewrite <- list_fmap_insert, IH.
  by destruct (select rnd n _ (S i) steps).
Qed.

(** The first branch lists the elements at the positions the loop picks
    among [len(population)], and no position is picked twice. *)
Lemma select_at_drawn_positions {A : Type} (rnd : nat -> nat)
      (population : list A) (k : nat) (r : list A) :
  (k <= length population)%nat ->
  select rnd (length population) population 0 k = Some r ->
  exists ps : list nat,
    drawn_positions rnd (length population) k = Some ps
    /\ NoDup ps /\ at_positions population ps r.
Proof.
  unfold drawn_positions. set (n := length population). intros Hn.
  set (pairs := imap (fun i x => (i, x)) population).
  assert (Hsnd : population = snd <$> pairs).
  { apply list_eq; intros i. unfold pairs.
    rewrite list_lookup_fmap, list_lookup_imap.
    by destruct (population !! i). }
  assert (Hfst : fst <$> pairs = seq 0 n).
  { unfold pairs. rewrite fmap_imap.
    rewrite (imap_ext _ (fun j _ => j)) by done.
    by rewrite imap_seq_0, list_fmap_id. }
  destruct (select_total rnd n k pairs 0) as (rp & rest & Hr & _ & Hp).
  { unfold pairs. by rewrite length_imap. }
  { lia. }
  rewrite Hsnd at 1. rewrite <- Hfst, !select_fmap, Hr. simpl. intros [= <-].
  rewrite Nat.sub_0_r, firstn_all2 in Hp
    by (unfold pairs; rewrite length_imap; done).
  exists (fst <$> rp). split; [done|]. split.
  - assert (Hnd : NoDup (fst <$> (rp ++ rest))).
    { rewrite Hp, Hfst. apply NoDup_seq. }
    rewrite fmap_app in Hnd. by apply NoDup_app in Hnd as [? _].
  - unfold at_positions. apply Forall2_fmap, Forall_Forall2_diag, Forall_forall.
    intros [p x] Hin. simpl.
    assert (Hin' : (p, x) ∈ pairs).
    { rewrite <- Hp. apply elem_of_app. by left. }
    apply elem_of_lookup_imap in Hin' as (i & y & [= -> ->] & Hy). done.
Qed.

(** Elements read at distinct positions are part of the list. *)
Lemma at_positions_perm {A : Type} (population : list A) (ps : list nat)
      (r : list A) :
  NoDup ps -> at_positions population ps r ->
  exists rest, r ++ rest ≡ₚ population.
Proof.
  intros Hnd Hat. pose proof (Forall2_length _ _ _ Hat) as Hlen.
  set (pairs := imap (fun i x => (i, x)) population).
  assert (Hsnd : snd <$> pairs = population).
  { apply list_eq; intros i. unfold pairs.
    rewrite list_lookup_fmap, list_lookup_imap.
    by destruct (population !! i). }
  assert (Hsub : zip ps r ⊆+ pairs).
  { apply NoDup_submseteq.
    - apply (NoDup_fmap_1 fst). rewrite fst_zip by lia. done.
    - intros [p x] Hin. apply list_elem_of_lookup in Hin as [i Hi].
      apply lookup_zip_with_Some in Hi as (p' & x' & [= -> ->] & Hp & Hx).
      apply elem_of_lookup_imap. exists p', x'. split; [done|].
      exact (Forall2_lookup_lr _ _ _ _ _ _ Hat Hp Hx). }
  apply (fmap_submseteq snd) in Hsub. rewrite snd_zip, Hsnd in Hsub by lia.
  apply submseteq_Permutation in Hsub as [rest Hrest].
  exists rest. by rewrite Hrest.
Qed.

(** *** Draws and selections correspond one to one

    On a pool without repetition the loop is an injective function of its
    (reduced) draws, and it reaches every arrangement of distinct pool
    elements.  The [k]-tuples of draws below [n], [n-1], ..., [n-k+1] and
    the arrangements of [k] distinct positions thus correspond one to
    one: draws that are uniform make every arrangement equally likely. *)

(** After a round, the live part of the pool is still without
    repetition and holds what it held, except the chosen element. *)
Lemma round_live {A : Type} (pool : list A) (j m : nat) (x y : A) :
  (j <= m)%nat -> pool !! j = Some x -> pool !! m = Some y ->
  NoDup (take (S m) pool) ->
  NoDup (take m (<[j:=y]> pool))
  /\ forall z, z ∈ take m (<[j:=y]> pool) <-> z ∈ take (S m) pool /\ z <> x.
Proof.
  intros Hjm Hj Hm Hnd.
  pose proof (round_keeps_elements pool j m x y Hjm Hj Hm) as Hp.
  rewrite <- Hp in Hnd. apply NoDup_app in Hnd as (Hnd & Hx & _).
  split; [done|]. intros z. rewrite <- Hp, elem_of_app, list_elem_of_singleton.
  split.
  - intros Hz. split; [by left|]. intros ->. by apply (Hx x), list_elem_of_singleton.
  - by intros [[|] ?].
Qed.

(** The loop reads the generator only at the rounds it runs. *)
Lemma select_ext {A : Type} (rnd rnd' : nat -> nat) (n steps : nat) :
  forall (pool : list A) (i : nat),
    (forall t, (i <= t < i + steps)%nat -> rnd t = rnd' t) ->
    select rnd n pool i steps = select rnd' n pool i steps.
Proof.
  induction steps as [|steps IH]; intros pool i Hext; simpl; [done|].
  unfold randbelow. rewrite (Hext i) by lia.
  destruct (pool !! _) as [x|]; [|done].
  destruct (pool !! _) as [y|]; [|done].
  rewrite (IH _ (S i)); [done|]. intros t Ht. apply Hext. lia.
Qed.

Lemma select_injective {A : Type} (rnd rnd' : nat -> nat) (n steps : nat) :
  forall (pool : list A) (i : nat),
    length pool = n -> (i + steps <= n)%nat ->
    NoDup (take (n - i) pool) ->
    select rnd n pool i steps = select rnd' n pool i steps ->
    forall t, (t < steps)%nat ->
              randbelow rnd (i + t) (n - i - t) = randbelow rnd' (i + t) (n - i - t).
Proof.
  induction steps as [|steps IH]; intros pool i Hlen Hle Hnd Heq t Ht; [lia|].
  simpl in Heq.
  assert (Hj : (randbelow rnd i (n - i) < n - i)%nat) by (apply randbelow_lt; lia).
  assert (Hj' : (randbelow rnd' i (n - i) < n - i)%nat) by (apply randbelow_lt; lia).
  destruct (lookup_lt_is_Some_2 pool (randbelow rnd i (n - i))) as [x Hx]; [lia|].
  destruct (lookup_lt_is_Some_2 pool (randbelow rnd' i (n - i))) as [x' Hx']; [lia|].
  destruct (lookup_lt_is_Some_2 pool (n - i - 1)) as [y Hy]; [lia|].
  rewrite Hx, Hx', Hy in Heq.
  destruct (select_total rnd n steps (<[randbelow rnd i (n - i):=y]> pool) (S i))
    as (r & _ & Hr & _); [by rewrite length_insert | lia |].
  destruct (select_total rnd' n steps (<[randbelow rnd' i (n - i):=y]> pool) (S i))
    as (r' & _ & Hr' & _); [by rewrite length_insert | lia |].
  rewrite Hr, Hr' in Heq. injection Heq as <- <-.
  assert (Hsame : randbelow rnd i (n - i) = randbelow rnd' i (n - i)).
  { apply (NoDup_lookup (take (n - i) pool) _ _ x); [done|..];
      by rewrite lookup_take_lt. }
  destruct t as [|t].
  { by rewrite Nat.add_0_r, Nat.sub_0_r. }
  rewrite <- Hsame in Hr'.
  replace (i + S t)%nat with (S i + t)%nat by lia.
  replace (n - i - S t)%nat with (n - S i - t)%nat by lia.
  apply (IH (<[randbelow rnd i (n - i):=y]> pool) (S i));
    [by rewrite length_insert | lia | | congruence | lia].
  replace (n - S i)%nat with (n - i - 1)%nat by lia.
  apply (round_live pool _ _ x y); [lia | done | done |].
  by replace (S (n - i - 1)) with (n - i)%nat by lia.
Qed.

Lemma select_reaches {A : Type} (n : nat) (r : list A) :
  forall (pool : list A) (i : nat),
    length pool = n ->
    NoDup (take (n - i) pool) ->
    NoDup r ->
    (forall z, z ∈ r -> z ∈ take (n - i) pool) ->
    exists rnd, select rnd n pool i (length r) = Some r.
Proof.
  induction r as [|x r IH]; intros pool i Hlen Hnd Hr Hin; simpl.
  - by exists (fun _ => 0%nat).
  - apply NoDup_cons in Hr as [Hx Hr].
    destruct (proj1 (list_elem_of_lookup _ _) (Hin x ltac:(left)))
      as [j Hj].
    apply lookup_take_Some in Hj as [Hj Hji].
    destruct (lookup_lt_is_Some_2 pool (n - i - 1)) as [y Hy]; [lia|].
    assert (Hlive : NoDup (take (S (n - i - 1)) pool))
      by (by replace (S (n - i - 1)) with (n - i)%nat by lia).
    destruct (round_live pool j (n - i - 1) x y ltac:(lia) Hj Hy Hlive)
      as [Hnd' Hmem].
    destruct (IH (<[j:=y]> pool) (S i)) as [rnd' Hsel].
    + by rewrite length_insert.
    + by replace (n - S i)%nat with (n - i - 1)%nat by lia.
    + done.
    + intros z Hz. replace (n - S i)%nat with (n - i - 1)%nat by lia.
      apply Hmem. split.
      * replace (S (n - i - 1)) with (n - i)%nat by lia. apply Hin. by right.
      * by intros ->.
    + exists (fun t => if (t =? i)%nat then j else rnd' t).
      unfold randbelow at 1 2. rewrite Nat.eqb_refl, Nat.mod_small by lia.
      rewrite Hj, Hy.
      rewrite (select_ext _ rnd'), Hsel; [done|].
      intros t Ht. destruct (Nat.eqb_spec t i); [lia|done].
Qed.

(** Different draws pick different positions. *)
Lemma drawn_positions_injective (rnd rnd' : nat -> nat) (n k : nat) :
  (k <= n)%nat ->
  drawn_positions rnd n k = drawn_positions rnd' n k ->
  forall t, (t < k)%nat -> randbelow rnd t (n - t) = randbelow rnd' t (n - t).
Proof.
  intros Hk Heq t Ht.
  assert (Hnd : NoDup (take (n - 0) (seq 0 n))).
  { rewrite Nat.sub_0_r, firstn_all2 by (by rewrite length_seq). apply NoDup_seq. }
  pose proof (select_injective rnd rnd' n k (seq 0 n) 0 (length_seq _ _)
                ltac:(lia) Hnd Heq t Ht) as H.
  simpl in H. by rewrite Nat.sub_0_r in H.
Qed.

(** Every arrangement of distinct positions is picked by some draws. *)
Lemma drawn_positions_reach (n : nat) (ps : list nat) :
  NoDup ps -> Forall (fun p => (p < n)%nat) ps ->
  exists rnd, drawn_positions rnd n (length ps) = Some ps.
Proof.
  intros Hnd Hlt. apply select_reaches; [by rewrite length_seq | | done |].
  - rewrite Nat.sub_0_r, firstn_all2 by (by rewrite length_seq). apply NoDup_seq.
  - intros p Hp. rewrite Nat.sub_0_r, firstn_all2 by (by rewrite length_seq).
    apply elem_of_seq. rewrite Forall_forall in Hlt. specialize (Hlt p Hp). lia.
Qed.

(** *** The second branch: drawing again on a collision *)

Lemma is_selected_elem (j : nat) (selected : list nat) :
  is_selected j selected = true <-> j ∈ selected.
Proof.
  unfold is_selected. rewrite existsb_exists, list_elem_of_In. split.
  - by intros (x & Hin & ->%Nat.eqb_eq).
  - intros Hin. exists j. split; [done | apply Nat.eqb_refl].
Qed.

Lemma is_selected_not_elem (j : nat) (selected : list nat) :
  is_selected j selected = false <-> j ∉ selected.
Proof.
  rewrite <- is_selected_elem. by destruct (is_selected j selected).
Qed.

Lemma first_fresh_ge (rnd : nat -> nat) (n : nat) (selected : list nat) (fuel : nat) :
  forall t, (t <= first_fresh rnd n selected t fuel)%nat.
Proof.
  induction fuel as [|fuel IH]; intros t; simpl; [lia|].
  destruct (is_selected _ _); [|lia]. specialize (IH (S t)). lia.
Qed.

(** Given enough outputs to meet a position that is not selected, the
    inner loop stops at the first such output. *)
Lemma first_fresh_least (rnd : nat -> nat) (n : nat) (selected : list nat)
      (fuel : nat) :
  forall t t' : nat,
    (t <= t' <= t + fuel)%nat ->
    is_selected (rnd t' mod n) selected = false ->
    (first_fresh rnd n selected t fuel <= t')%nat
    /\ is_selected (rnd (first_fresh rnd n selected t fuel) mod n) selected = false
    /\ forall s, (t <= s < first_fresh rnd n selected t fuel)%nat ->
                 is_selected (rnd s mod n) selected = true.
Proof.
  induction fuel as [|fuel IH]; intros t t' Ht Hfresh; simpl.
  - assert (t' = t) as -> by lia. repeat split; [lia | done | intros s Hs; lia].
  - destruct (is_selected (rnd t mod n) selected) eqn:Hsel.
    + assert (t' <> t) by (intros ->; congruence).
      destruct (IH (S t) t' ltac:(lia) Hfresh) as (Hle & Hf & Hbefore).
      repeat split; [done | done |].
      intros s Hs. destruct (decide (s = t)) as [->|]; [done|].
      apply Hbefore. lia.
    + repeat split; [lia | done | intros s Hs; lia].
Qed.


(** An output that is not selected is accepted at once. *)
Lemma first_fresh_at_once (rnd : nat -> nat) (n : nat) (selected : list nat)
      (t fuel : nat) :
  is_selected (rnd t mod n) selected = false ->
  first_fresh rnd n selected t fuel = t.
Proof. intros H. destruct fuel; simpl; [done|]. by rewrite H. Qed.

(** While fewer than [n] positions are selected, one below [n] is not. *)
Lemma unselected_some (n : nat) (selected : list nat) :
  (length selected < n)%nat ->
  exists v, unselected n selected = Some v
            /\ (v < n)%nat /\ is_selected v selected = false.
Proof.
  intros Hlen. unfold unselected.
  destruct (List.find _ (seq 0 n)) as [v|] eqn:Hf.
  - apply find_some in Hf as [Hin Hv]. exists v. split; [done|].
    apply list_elem_of_In, elem_of_seq in Hin. split; [lia|].
    by apply negb_true_iff.
  - exfalso. assert (Hsub : seq 0 n ⊆+ selected).
    { apply NoDup_submseteq; [apply NoDup_seq|].
      intros x Hx. apply is_selected_elem.
      apply list_elem_of_In in Hx.
      pose proof (find_none _ _ Hf x Hx) as Hn. by apply negb_false_iff in Hn. }
    apply submseteq_length in Hsub. rewrite length_seq in Hsub. lia.
Qed.

(** The inner loop ends: it stops at the first output, from the [t]-th
    on, whose position is not selected yet. *)
Lemma fresh_step (g : Generator) (n : nat) (selected : list nat) (t : nat) :
  (length selected < n)%nat ->
  let a := first_fresh (raw g) n selected t (patience g n selected t) in
  (t <= a)%nat
  /\ is_selected (raw g a mod n) selected = false
  /\ (forall s, (t <= s < a)%nat -> is_selected (raw g s mod n) selected = true)
  /\ (raw g a mod n < n)%nat.
Proof.
  intros Hlen a.
  destruct (unselected_some n selected Hlen) as (v & Hv & Hvn & Hfresh).
  destruct (fair g n t v Hvn) as [Hge Hraw].
  assert (Hp : patience g n selected t = (next_at g n t v - t)%nat)
    by (unfold patience; by rewrite Hv).
  destruct (first_fresh_least (raw g) n selected (patience g n selected t)
              t (next_at g n t v)) as (_ & Hf & Hbefore).
  { rewrite Hp. lia. }
  { by rewrite Hraw. }
  split; [apply first_fresh_ge|]. split; [exact Hf|]. split; [exact Hbefore|].
  apply Nat.mod_upper_bound. lia.
Qed.

(** The second branch never indexes out of range and yields one element
    per round, consuming at least one output per round. *)
Lemma select_set_total {A : Type} (g : Generator) (n steps : nat)
      (population : list A) :
  length population = n ->
  forall (selected : list nat) (t : nat),
    (length selected + steps <= n)%nat ->
    exists r t',
      select_set g n population selected t steps = Some (r, t')
      /\ length r = steps /\ (t + steps <= t')%nat.
Proof.
  intros Hn. induction steps as [|steps IH]; intros selected t Hle; simpl.
  - exists [], t. repeat split; lia.
  - destruct (fresh_step g n selected t ltac:(lia)) as (Hge & _ & _ & Hj).
    set (a := first_fresh _ _ _ _ _) in *.
    destruct (lookup_lt_is_Some_2 population (raw g a mod n)) as [x Hx]; [lia|].
    rewrite Hx.
    destruct (IH ((raw g a mod n)%nat :: selected) (S a)) as (r & t' & Hr & Hlr & Ht');
      [simpl; lia|].
    rewrite Hr. exists (x :: r), t'. repeat split; simpl; lia.
Qed.

(** The second branch reads elements by position only. *)
Lemma select_set_natural {A : Type} (g : Generator) (n steps : nat)
      (population : list A) :
  length population = n ->
  forall (selected : list nat) (t : nat) (r : list A) (t' : nat),
    select_set g n population selected t steps = Some (r, t') ->
    exists ps,
      select_set g n (seq 0 n) selected t steps = Some (ps, t')
      /\ at_positions population ps r.
Proof.
  intros Hn. induction steps as [|steps IH]; intros selected t r t'; simpl.
  - intros [= <- <-]. exists []. split; [done | constructor].
  - set (a := first_fresh _ _ _ _ _).
    destruct (population !! (raw g a mod n)%nat) as [x|] eqn:Hx; [|done].
    destruct (select_set g n population _ (S a) steps) as [[r0 t0]|] eqn:Hr;
      [|done].
    intros [= <- <-].
    apply IH in Hr as (ps & Hps & Hat).
    pose proof (lookup_lt_Some _ _ _ Hx) as Hlt.
    rewrite (lookup_seq_lt 0 n (raw g a mod n)) by lia. simpl.
    rewrite Hps. exists ((raw g a mod n)%nat :: ps). split; [done|].
    by constructor.
Qed.

(** The positions the second branch picks are below [n], were not
    selected before, and are picked once. *)
Lemma select_set_positions (g : Generator) (n steps : nat) :
  forall (selected : list nat) (t : nat) (ps : list nat) (t' : nat),
    (length selected + steps <= n)%nat ->
    select_set g n (seq 0 n) selected t steps = Some (ps, t') ->
    NoDup ps
    /\ Forall (fun p => (p < n)%nat /\ p ∉ selected) ps
    /\ length ps = steps /\ (t + steps <= t')%nat.
Proof.
  induction steps as [|steps IH]; intros selected t ps t' Hle; simpl.
  - intros [= <- <-]. repeat split; [constructor | constructor | lia].
  - destruct (fresh_step g n selected t ltac:(lia)) as (Hge & Hf & _ & Hj).
    set (a := first_fresh _ _ _ _ _) in *.
    rewrite (lookup_seq_lt 0 n (raw g a mod n)) by lia. simpl.
    destruct (select_set g n (seq 0 n) _ (S a) steps) as [[r0 t0]|] eqn:Hr;
      [|done].
    intros [= <- <-].
    apply IH in Hr as (Hnd & Hall & Hlen & Ht0); [|simpl; lia].
    apply is_selected_not_elem in Hf.
    repeat split.
    + constructor; [|done]. intros Hin.
      rewrite Forall_forall in Hall. destruct (Hall _ Hin) as [_ Hnot].
      apply Hnot. by left.
    + constructor; [done|]. eapply Forall_impl; [exact Hall|].
      intros p [Hp Hnot]. split; [done|]. intros Hin. apply Hnot. by right.
    + simpl. lia.
    + lia.
Qed.


(** Outputs that are distinct positions are taken as they come. *)
Lemma select_set_reach (g : Generator) (n : nat) (ps : list nat) :
  forall (selected : list nat) (t : nat),
    (forall i p, ps !! i = Some p -> raw g (t + i)%nat = p) ->
    NoDup ps ->
    Forall (fun p => (p < n)%nat /\ p ∉ selected) ps ->
    select_set g n (seq 0 n) selected t (length ps)
    = Some (ps, (t + length ps)%nat).
Proof.
  induction ps as [|p ps IH]; intros selected t Hraw Hnd Hall; simpl.
  - by rewrite Nat.add_0_r.
  - apply NoDup_cons in Hnd as [Hp Hnd].
    apply Forall_cons in Hall as [[Hpn Hps] Hall].
    assert (Hrt : raw g t = p).
    { rewrite <- (Hraw 0%nat p eq_refl). f_equal. lia. }
    assert (Hmod : (raw g t mod n = p)%nat) by (rewrite Hrt; by apply Nat.mod_small).
    rewrite first_fresh_at_once
      by (rewrite Hmod; by apply is_selected_not_elem).
    rewrite Hmod, (lookup_seq_lt 0 n p) by lia. simpl.
    rewrite (IH (p :: selected) (S t)).
    + do 2 f_equal. lia.
    + intros i q Hq. rewrite <- (Hraw (S i) q Hq). f_equal. lia.
    + done.
    + eapply Forall_forall. intros q Hq. rewrite Forall_forall in Hall.
      destruct (Hall q Hq) as [Hqn Hqs]. split; [done|].
      intros [->|Hin]%elem_of_cons; [done | by apply Hqs].
Qed.

(** Relabelling the positions the outputs point at, by a one-to-one
    relabelling [f] of the positions below [n], relabels the positions
    the second branch picks, and it consumes the same outputs. *)
Lemma select_set_relabel (f : nat -> nat) (g g' : Generator) (n steps : nat) :
  (forall a b, (a < n)%nat -> (b < n)%nat -> f a = f b -> a = b) ->
  (forall a, (a < n)%nat -> (f a < n)%nat) ->
  forall (selected : list nat) (t : nat) (ps : list nat) (t' : nat),
    Forall (fun p => (p < n)%nat) selected ->
    (length selected + steps <= n)%nat ->
    select_set g n (seq 0 n) selected t steps = Some (ps, t') ->
    (forall s, (t <= s < t')%nat -> (raw g' s mod n = f (raw g s mod n))%nat) ->
    select_set g' n (seq 0 n) (f <$> selected) t steps = Some (f <$> ps, t').
Proof.
  intros Hinj Hran.
  induction steps as [|steps IH]; intros selected t ps t' Hsel Hle; simpl.
  - by intros [= <- <-] _.
  - destruct (fresh_step g n selected t ltac:(lia)) as (Hge & Hf & Hbefore & Hj).
    destruct (fresh_step g' n (f <$> selected) t
                ltac:(rewrite length_fmap; lia)) as (Hge' & Hf' & Hbefore' & Hj').
    set (a := first_fresh (raw g) _ _ _ _) in *.
    set (a' := first_fresh (raw g') _ _ _ _) in *.
    rewrite (lookup_seq_lt 0 n (raw g a mod n)) by lia.
    rewrite (lookup_seq_lt 0 n (raw g' a' mod n)) by lia. simpl.
    destruct (select_set g n (seq 0 n) _ (S a) steps) as [[r0 t0]|] eqn:Hr;
      [|done].
    intros [= <- <-] Hrel.
    pose proof Hr as Hr'.
    apply select_set_positions in Hr' as (_ & _ & _ & Ht0); [|simpl; lia].
    assert (Hsame : forall s, (t <= s < t0)%nat ->
                              is_selected (raw g' s mod n) (f <$> selected)
                              = is_selected (raw g s mod n) selected).
    { intros s Hs. rewrite (Hrel s Hs).
      assert (Hlt : (raw g s mod n < n)%nat) by (apply Nat.mod_upper_bound; lia).
      remember (raw g s mod n)%nat as v eqn:Ev. clear Ev.
      destruct (is_selected v selected) eqn:Hv'.
      - apply is_selected_elem. apply is_selected_elem in Hv'.
        by apply list_elem_of_fmap_2.
      - apply is_selected_not_elem. apply is_selected_not_elem in Hv'.
        intros (u & Hu & Hin)%list_elem_of_fmap.
        rewrite Forall_forall in Hsel.
        apply Hinj in Hu; [congruence | done | by apply Hsel]. }
    assert (Ha : a' = a).
    { destruct (lt_eq_lt_dec a' a) as [[Hlt|]|Hlt]; [|done|].
      - pose proof (Hbefore a' ltac:(lia)) as Hb.
        rewrite <- Hsame in Hb by lia. congruence.
      - pose proof (Hbefore' a ltac:(lia)) as Hb.
        rewrite Hsame in Hb by lia. congruence. }
    rewrite Ha, (Hrel a) by lia.
    change (f (raw g a mod n)%nat :: (f <$> selected))
      with (f <$> ((raw g a mod n)%nat :: selected)).
    rewrite (IH _ _ r0 t0); [done | | simpl; lia | done |].
    + by constructor.
    + intros s Hs. apply Hrel. lia.
Qed.

(** *** [random.sample] as a whole *)

(** [ceil_log4 m] is the least exponent [e] with [m <= 4 ^ e]. *)
Lemma ceil_log4_spec (m : Z) :
  2 <= m -> 0 < ceil_log4 m /\ 4 ^ (ceil_log4 m - 1) < m <= 4 ^ ceil_log4 m.
Proof.
  intros Hm. unfold ceil_log4.
  pose proof (Z.log2_up_spec m ltac:(lia)) as [Hlo Hhi].
  pose proof (Z.log2_up_pos m ltac:(lia)) as Hpos.
  set (L := Z.log2_up m) in *. set (e := (L + 1) / 2).
  assert (He : 2 * e <= L + 1 <= 2 * e + 1).
  { pose proof (Z.div_mod (L + 1) 2 ltac:(lia)) as Hd.
    pose proof (Z.mod_pos_bound (L + 1) 2 ltac:(lia)) as Hb.
    fold e in Hd. lia. }
  assert (Hpow : forall x, 0 <= x -> 4 ^ x = 2 ^ (2 * x)).
  { intros x Hx. rewrite Z.pow_mul_r by lia. done. }
  split; [lia|]. rewrite !Hpow by lia. split.
  - eapply Z.le_lt_trans; [|exact Hlo].
    apply Z.pow_le_mono_r; lia.
  - etransitivity; [exact Hhi|]. apply Z.pow_le_mono_r; lia.
Qed.

Example setsize_small : setsize 5 = 21.
Proof. reflexivity. Qed.

Example setsize_of_ten : setsize 10 = 85.
Proof. reflexivity. Qed.

Example setsize_of_twenty_two : setsize 22 = 277.
Proof. reflexivity. Qed.

Lemma sample_guard_true {A : Type} (population : list A) (k : Z) :
  0 <= k <= len population ->
  (0 <=? k) && (k <=? Z.of_nat (length population)) = true.
Proof.
  unfold len. intros Hk. apply andb_true_iff; split; apply Z.leb_le; lia.
Qed.

(** [sample] returns exactly when [0 <= k <= len(population)], and then
    yields [k] elements that, with some remainder, make up the
    population; it consumes at least [k] outputs. *)
Lemma sample_total {A : Type} (g : Generator) (t : nat) (population : list A)
      (k : Z) :
  0 <= k <= len population ->
  exists r t' rest,
    sample g t population k = inr (r, t')
    /\ len r = k
    /\ r ++ rest ≡ₚ population
    /\ (t + Z.to_nat k <= t')%nat.
Proof.
  intros Hk. unfold sample. rewrite (sample_guard_true population k Hk).
  unfold len in *.
  destruct (Z.of_nat (length population) <=? setsize k).
  - destruct (select_total (fun i => raw g (t + i)%nat) (length population)
                (Z.to_nat k) population 0)
      as (r & rest & Hr & Hlr & Hp); [done | lia |].
    rewrite Hr. exists r, (t + Z.to_nat k)%nat, rest.
    split; [done|]. split; [lia|]. split; [|lia].
    rewrite Hp, Nat.sub_0_r. by rewrite firstn_all.
  - destruct (select_set_total g (length population) (Z.to_nat k) population
                eq_refl [] t) as (r & t' & Hr & Hlr & Ht'); [simpl; lia|].
    rewrite Hr.
    destruct (select_set_natural g _ _ population eq_refl _ _ _ _ Hr)
      as (ps & Hps & Hat).
    apply select_set_positions in Hps as (Hnd & _); [|simpl; lia].
    destruct (at_positions_perm population ps r Hnd Hat) as [rest Hrest].
    exists r, t', rest. split; [done|]. split; [lia|]. split; [done | lia].
Qed.

Lemma sample_raises {A : Type} (g : Generator) (t : nat) (population : list A)
      (k : Z) :
  k < 0 \/ len population < k ->
  sample g t population k
  = inl (ValueError "Sample larger than population or is negative").
Proof.
  intros Hk. unfold sample, len in *.
  replace ((0 <=? k) && (k <=? Z.of_nat (length population))) with false; [done|].
  symmetry. apply andb_false_iff.
  destruct Hk; [left; apply Z.leb_gt | right; apply Z.leb_gt]; lia.
Qed.

(** A sample lists the elements at the positions [random.sample] picks
    among [len(population)] with the same outputs: the positions do not
    depend on what the population holds.  No position is picked twice. *)
Lemma sample_at_sampled_positions {A : Type} (g : Generator) (t : nat)
      (population : list A) (k : Z) (r : list A) (t' : nat) :
  sample g t population k = inr (r, t') ->
  exists ps : list nat,
    sampled_positions g t (length population) k = Some ps
    /\ NoDup ps /\ at_positions population ps r.
Proof.
  unfold sampled_positions, sample. rewrite length_seq.
  set (n := length population).
  destruct ((0 <=? k) && (k <=? Z.of_nat n)) eqn:Hg; [|done].
  apply andb_true_iff in Hg as [H0%Z.leb_le Hn%Z.leb_le].
  destruct (Z.of_nat n <=? setsize k).
  - destruct (select _ n population 0 _) as [r0|] eqn:Hr; [|done].
    intros [= <- <-].
    apply select_at_drawn_positions in Hr as (ps & Hps & Hnd & Hat);
      [|fold n; lia].
    unfold drawn_positions in Hps. fold n in Hps. rewrite Hps. eauto.
  - destruct (select_set g n population [] t _) as [[r0 t0]|] eqn:Hr; [|done].
    intros [= <- <-].
    destruct (select_set_natural g _ _ population eq_refl _ _ _ _ Hr)
      as (ps & Hps & Hat).
    fold n in Hps. rewrite Hps.
    apply select_set_positions in Hps as (Hnd & _); [|simpl; lia]. eauto.
Qed.

Lemma sample_positions {A : Type} (g : Generator) (t : nat) (population : list A)
      (k : Z) (r : list A) (t' : nat) :
  sample g t population k = inr (r, t') ->
  exists ps : list nat, NoDup ps /\ at_positions population ps r.
Proof.
  intros (ps & _ & Hnd & Hat)%sample_at_sampled_positions. eauto.
Qed.


(** On a population of at most [setsize k] elements [sample] consumes
    exactly [k] outputs. *)
Lemma sample_pool_consumes {A : Type} (g : Generator) (t : nat)
      (population : list A) (k : Z) (r : list A) (t' : nat) :
  len population <= setsize k ->
  sample g t population k = inr (r, t') ->
  t' = (t + Z.to_nat k)%nat.
Proof.
  unfold sample, len. intros Hn.
  destruct ((0 <=? k) && (k <=? Z.of_nat (length population))); [|done].
  rewrite (proj2 (Z.leb_le _ _) Hn).
  destruct (select _ _ population 0 _); [|done]. by intros [= _ <-].
Qed.

(** On a population of at most [setsize k] elements the positions are
    those of the first branch, which reads [k] outputs. *)
Lemma sampled_positions_pool (g : Generator) (t n : nat) (k : Z) :
  0 <= k <= Z.of_nat n -> Z.of_nat n <= setsize k ->
  sampled_positions g t n k
  = drawn_positions (fun i => raw g (t + i)%nat) n (Z.to_nat k).
Proof.
  intros Hk Hn. unfold sampled_positions, sample, drawn_positions.
  rewrite length_seq.
  rewrite (proj2 (andb_true_iff _ _)) by (split; apply Z.leb_le; lia).
  rewrite (proj2 (Z.leb_le _ _) Hn).
  by destruct (select _ n (seq 0 n) 0 (Z.to_nat k)).
Qed.

(** On a larger population they are those of the second branch. *)
Lemma sampled_positions_set (g : Generator) (t n : nat) (k : Z) :
  0 <= k <= Z.of_nat n -> setsize k < Z.of_nat n ->
  sampled_positions g t n k
  = fst <$> select_set g n (seq 0 n) [] t (Z.to_nat k).
Proof.
  intros Hk Hn. unfold sampled_positions, sample.
  rewrite length_seq.
  rewrite (proj2 (andb_true_iff _ _)) by (split; apply Z.leb_le; lia).
  rewrite (proj2 (Z.leb_gt _ _) Hn).
  by destruct (select_set g n (seq 0 n) [] t (Z.to_nat k)) as [[? ?]|].
Qed.

(** As many distinct positions below [n] as asked for. *)
Lemma arrangement_length (n : nat) (k : Z) (ps : list nat) :
  arrangement n k ps -> 0 <= k <= Z.of_nat n.
Proof.
  intros (Hnd & Hlt & Hlen).
  assert (Hsub : ps ⊆+ seq 0 n).
  { apply NoDup_submseteq; [done|]. intros p Hp. apply elem_of_seq.
    rewrite Forall_forall in Hlt. specialize (Hlt p Hp). lia. }
  apply submseteq_length in Hsub. rewrite length_seq in Hsub. lia.
Qed.

Lemma sampled_positions_arrangement (g : Generator) (t n : nat) (k : Z)
      (ps : list nat) :
  sampled_positions g t n k = Some ps -> arrangement n k ps.
Proof.
  unfold sampled_positions.
  destruct (sample g t (seq 0 n) k) as [e|[ps0 t']] eqn:Hs; [done|].
  intros [= ->].
  assert (Hk : 0 <= k <= Z.of_nat n).
  { unfold sample in Hs. rewrite length_seq in Hs.
    destruct ((0 <=? k) && (k <=? Z.of_nat n)) eqn:Hg; [|done].
    apply andb_true_iff in Hg as [H0%Z.leb_le Hn%Z.leb_le]. lia. }
  destruct (sample_total g t (seq 0 n) k) as (r & t0 & rest & Hr & Hlen & _).
  { unfold len. by rewrite length_seq. }
  rewrite Hs in Hr. injection Hr as <- <-.
  destruct (sample_at_sampled_positions g t (seq 0 n) k ps t' Hs)
    as (qs & _ & Hnd & Hat).
  assert (qs = ps) as ->.
  { apply list_eq_Forall2. eapply Forall2_impl; [exact Hat|].
    intros p x Hp. simpl in Hp. apply lookup_seq in Hp. lia. }
  split; [done|]. split; [|exact Hlen].
  apply Forall_forall. intros p Hp.
  apply list_elem_of_lookup in Hp as [i Hi].
  pose proof (Forall2_lookup_lr _ _ _ _ _ _ Hat Hi Hi) as Hp. simpl in Hp.
  apply lookup_seq in Hp. lia.
Qed.

(** The scripted generator outputs its script. *)
Lemma scripted_raw_at (t : nat) (script : list nat) (i x : nat) :
  script !! i = Some x ->
  raw (scripted (repeat 0%nat t ++ script)) (t + i)%nat = x.
Proof.
  intros Hx. simpl. unfold scripted_raw.
  rewrite lookup_app_r by (rewrite repeat_length; lia).
  rewrite repeat_length. replace (t + i - t)%nat with i by lia. by rewrite Hx.
Qed.

(** Every arrangement of [k] distinct positions is the one picked, for
    some outputs of the generator. *)
Lemma sampled_positions_reach (t n : nat) (k : Z) (ps : list nat) :
  arrangement n k ps ->
  exists g, sampled_positions g t n k = Some ps.
Proof.
  intros Harr. pose proof (arrangement_length n k ps Harr) as Hk.
  destruct Harr as (Hnd & Hlt & Hlen).
  destruct (Z_le_gt_dec (Z.of_nat n) (setsize k)) as [Hn|Hn].
  - destruct (drawn_positions_reach n ps Hnd Hlt) as [rnd Hrnd].
    exists (scripted (repeat 0%nat t ++ (rnd <$> seq 0 (length ps)))).
    rewrite sampled_positions_pool by done.
    assert (Z.to_nat k = length ps) as -> by lia.
    rewrite <- Hrnd. unfold drawn_positions. apply select_ext.
    intros i Hi. apply scripted_raw_at.
    rewrite list_lookup_fmap, lookup_seq_lt by lia. done.
  - exists (scripted (repeat 0%nat t ++ ps)).
    rewrite sampled_positions_set by lia.
    assert (Z.to_nat k = length ps) as -> by lia.
    rewrite (select_set_reach _ n ps [] t); [done | | done |].
    + intros i p Hp. by apply scripted_raw_at.
    + eapply Forall_impl; [exact Hlt|]. intros p Hp. split; [done|].
      apply not_elem_of_nil.
Qed.

(** In the first branch, outputs that differ after reduction to the
    bounds [n], [n-1], ... pick different arrangements. *)
Lemma sampled_positions_injective (g g' : Generator) (t n : nat) (k : Z) :
  0 <= k <= Z.of_nat n -> Z.of_nat n <= setsize k ->
  sampled_positions g t n k = sampled_positions g' t n k ->
  forall i, (i < Z.to_nat k)%nat ->
            (raw g (t + i) mod (n - i) = raw g' (t + i) mod (n - i))%nat.
Proof.
  intros Hk Hn. rewrite !sampled_positions_pool by done. intros Heq i Hi.
  exact (drawn_positions_injective _ _ n (Z.to_nat k) ltac:(lia) Heq i Hi).
Qed.

(** In the second branch, relabelling the positions the outputs point
    at, one to one, relabels the arrangement picked. *)
Lemma sampled_positions_relabel (f : nat -> nat) (g g' : Generator)
      (t n : nat) (k : Z) (ps : list nat) (t' : nat) :
  setsize k < Z.of_nat n ->
  (forall a b, (a < n)%nat -> (b < n)%nat -> f a = f b -> a = b) ->
  (forall a, (a < n)%nat -> (f a < n)%nat) ->
  sample g t (seq 0 n) k = inr (ps, t') ->
  (forall s, (t <= s < t')%nat -> (raw g' s mod n = f (raw g s mod n))%nat) ->
  sample g' t (seq 0 n) k = inr (f <$> ps, t').
Proof.
  intros Hn Hinj Hran. unfold sample. rewrite length_seq.
  destruct ((0 <=? k) && (k <=? Z.of_nat n)) eqn:Hg; [|done].
  apply andb_true_iff in Hg as [H0%Z.leb_le Hk%Z.leb_le].
  rewrite (proj2 (Z.leb_gt _ _) Hn).
  destruct (select_set g n (seq 0 n) [] t _) as [[r0 t0]|] eqn:Hr; [|done].
  intros [= -> ->] Hrel.
  rewrite (select_set_relabel f g g' n _ Hinj Hran [] t ps t');
    [done | constructor | simpl; lia | done | done].
Qed.

End RandomFacts.

(** ** Running the monad *)

Ltac unfold_M :=
  unfold mbind, M_bind, mret, M_ret, try_except, raise, post, emit, lift,
    read_env, parse_file, global_logger, random_sample in *.

Lemma truthy_nonempty (s : string) : s <> "" -> PyStr.truthy s = true.
Proof. by destruct s. Qed.

Lemma truthy_opt_false (o : option string) :
  PyStr.truthy_opt o = false <-> o = None \/ o = Some "".
Proof.
  destruct o as [[|c s]|]; simpl; split; try done; auto.
  intros [|]; done.
Qed.

(** ** The submitters *)

Section Submitters.

Variable env : Env.
Variable w : World.
Variables (urls : list string) (site_url : string).

(** With a key, the batch submitter posts exactly one request whenever
    the sample can be drawn; the result is decided by what comes back. *)
Lemma bing_run (key : string) (limit : Z) (url_list : list string) (t : nat) :
  key <> "" ->
  Random.sample (rand env) (draws w) urls (Z.min (len urls) limit)
  = inr (url_list, t) ->
  let req := mkRequest (BingSubmitter.base_url +:+ "?apikey=" +:+ key)
                       BingSubmitter.headers
                       (BingSubmitter.data site_url url_list) 20 in
  exists r,
    BingSubmitter.submit_urls (Some key) urls site_url limit env w
    = (inr r, mkWorld (log w) (sent w ++ [req]) t)
    /\ match session_post env req with
       | inr resp =>
           if status_code resp =? 200 then
             match resp_json resp with
             | inr body =>
                 r = mkResult "success"
                       ("成功提交 " +:+ PyStr.of_Z (len urls) +:+ " 个URL到必应")
                       (Some (Decoded body))
             | inl _ => status r = "error" /\ response r = None
             end
           else
             r = mkResult "error"
                   ("提交失败，状态码: " +:+ PyStr.of_Z (status_code resp))
                   (Some (Raw (resp_text resp)))
       | inl _ => status r = "error" /\ response r = None
       end.
Proof.
  intros Hkey Hs req. unfold BingSubmitter.submit_urls.
  rewrite (truthy_nonempty _ Hkey). simpl. unfold_M. rewrite Hs. simpl.
  fold req.
  destruct (session_post env req) as [e|resp]; simpl.
  - destruct e; eauto.
  - destruct (status_code resp =? 200); simpl; [|eauto].
    destruct (resp_json resp) as [e|body]; simpl; [|eauto].
    destruct e; eauto.
Qed.

(** The push submitter, with a key, always posts exactly one request. *)
Lemma indexnow_run (key : string) :
  key <> "" ->
  let req := mkRequest IndexNowSubmitter.base_url IndexNowSubmitter.headers
                       (IndexNowSubmitter.data key site_url urls) 20 in
  exists r,
    IndexNowSubmitter.submit_urls (Some key) urls site_url env w
    = (inr r, mkWorld (log w) (sent w ++ [req]) (draws w))
    /\ match session_post env req with
       | inr resp =>
           if (status_code resp =? 200) || (status_code resp =? 202) then
             r = mkResult "success"
                   ("成功提交, 状态码: " +:+ PyStr.of_Z (status_code resp))
                   (Some (Raw (resp_text resp)))
           else
             r = mkResult "error"
                   ("提交失败，状态码: " +:+ PyStr.of_Z (status_code resp))
                   (Some (Raw (resp_text resp)))
       | inl _ => status r = "error" /\ response r = None
       end.
Proof.
  intros Hkey req. unfold IndexNowSubmitter.submit_urls.
  rewrite (truthy_nonempty _ Hkey). simpl. unfold_M. fold req.
  destruct (session_post env req) as [e|resp]; simpl.
  - destruct e; eauto.
  - destruct ((status_code resp =? 200) || (status_code resp =? 202)); eauto.
Qed.

(** When the sample cannot be drawn, nothing is posted. *)
Lemma bing_run_no_sample (key : string) (limit : Z) (e : exn) :
  key <> "" ->
  Random.sample (rand env) (draws w) urls (Z.min (len urls) limit) = inl e ->
  exists r,
    BingSubmitter.submit_urls (Some key) urls site_url limit env w = (inr r, w)
    /\ status r = "error".
Proof.
  intros Hkey Hs. unfold BingSubmitter.submit_urls.
  rewrite (truthy_nonempty _ Hkey). simpl. unfold_M. rewrite Hs. simpl.
  destruct e; eauto.
Qed.

Lemma bing_no_key (api_key : option string) (limit : Z) :
  api_key = None \/ api_key = Some "" ->
  BingSubmitter.submit_urls api_key urls site_url limit env w
  = (inr missing_key, w).
Proof. by intros [-> | ->]. Qed.

Lemma indexnow_no_key (api_key : option string) :
  api_key = None \/ api_key = Some "" ->
  IndexNowSubmitter.submit_urls api_key urls site_url env w
  = (inr missing_key, w).
Proof. by intros [-> | ->]. Qed.

End Submitters.

(** C2. For both submitters: when the configured API key is absent
    ([None] or the empty string), [submit_urls] returns a result with
    status ['error'] and leaves the world exactly as it found it, so no
    outbound HTTP request is made on the way (nor is anything drawn or
    logged). *)
Theorem missing_key_fails_fast
        (env : Env) (w : World) (api_key : option string)
        (urls : list string) (site_url : string) (limit : Z) :
  api_key = None \/ api_key = Some "" ->
  (exists r w',
      BingSubmitter.submit_urls api_key urls site_url limit env w = (inr r, w')
      /\ status r = "error" /\ sent w' = sent w /\ w' = w)
  /\ (exists r w',
         IndexNowSubmitter.submit_urls api_key urls site_url env w = (inr r, w')
         /\ status r = "error" /\ sent w' = sent w /\ w' = w).
Proof.
  intros Hkey. split; exists missing_key, w.
  - by rewrite bing_no_key.
  - by rewrite indexnow_no_key.
Qed.

Lemma missing_key_fails_fast_witness :
  let env := Fixture.env true (inr Fixture.sitemap3) (inr Fixture.ok_response) in
  (exists r w',
      BingSubmitter.submit_urls None Fixture.three_urls "https://a.example" 10
                                env world0 = (inr r, w')
      /\ status r = "error" /\ sent w' = sent world0 /\ w' = world0)
  /\ (exists r w',
         IndexNowSubmitter.submit_urls None Fixture.three_urls "https://a.example"
                                       env world0 = (inr r, w')
         /\ status r = "error" /\ sent w' = sent world0 /\ w' = world0).
Proof.
  intros env.
  apply (missing_key_fails_fast env world0 None Fixture.three_urls
                                "https://a.example" 10).
  left. reflexivity.
Defined.

(** C6. The push submitter sends the whole input list, unsampled and in
    input order: with a key, it posts exactly one request, to the
    IndexNow endpoint, whose JSON body is
    [{host: site_url, key: key, keyLocation: site_url + "/" + key + ".txt",
      urlList: urls}]. *)
Theorem indexnow_sends_whole_list
        (env : Env) (w : World) (key : string)
        (urls : list string) (site_url : string) :
  key <> "" ->
  exists r w' req,
    IndexNowSubmitter.submit_urls (Some key) urls site_url env w = (inr r, w')
    /\ sent w' = sent w ++ [req]
    /\ req_url req = "https://api.indexnow.org/IndexNow"
    /\ req_json req
       = JObj [("host", JStr site_url);
               ("key", JStr key);
               ("keyLocation", JStr (site_url +:+ "/" +:+ key +:+ ".txt"));
               ("urlList", JArr (map JStr urls))].
Proof.
  intros Hkey. unfold IndexNowSubmitter.submit_urls.
  rewrite (truthy_nonempty _ Hkey). simpl. unfold_M.
  set (req := mkRequest _ _ _ _).
  assert (Hreq : req_url req = "https://api.indexnow.org/IndexNow"
                 /\ req_json req
                    = JObj [("host", JStr site_url);
                            ("key", JStr key);
                            ("keyLocation", JStr (site_url +:+ "/" +:+ key +:+ ".txt"));
                            ("urlList", JArr (map JStr urls))]) by done.
  destruct (session_post env req) as [e|resp]; simpl.
  - destruct e; eauto 10.
  - destruct ((status_code resp =? 200) || (status_code resp =? 202)); eauto 10.
Qed.

Lemma indexnow_sends_whole_list_witness :
  let env := Fixture.env true (inr Fixture.sitemap3) (inr Fixture.ok_response) in
  "k" <> ""
  /\ exists r w' req,
      IndexNowSubmitter.submit_urls (Some "k") Fixture.three_urls
                                    "https://a.example" env world0 = (inr r, w')
      /\ sent w' = sent world0 ++ [req]
      /\ req_url req = "https://api.indexnow.org/IndexNow"
      /\ req_json req
         = JObj [("host", JStr "https://a.example");
                 ("key", JStr "k");
                 ("keyLocation", JStr ("https://a.example" +:+ "/" +:+ "k" +:+ ".txt"));
                 ("urlList", JArr (map JStr Fixture.three_urls))].
Proof.
  intros env. split; [discriminate|].
  apply (indexnow_sends_whole_list env world0 "k" Fixture.three_urls
                                   "https://a.example").
  discriminate.
Defined.

Lemma len_nonneg {A : Type} (l : list A) : 0 <= len l.
Proof. unfold len. lia. Qed.

(** C1. Whatever the key, the URL list and the limit, every request the
    batch submitter posts carries a JSON body [{siteUrl, urlList}] whose
    [urlList] is the sample [random.sample] draws from the input with the
    outputs of the process-wide generator: it has exactly
    [min(len(urls), limit)] entries, hence at most [limit], every entry
    is an element of the input, and the entries are the input's elements
    at the positions [random.sample] picks with these outputs among
    [len(urls)] positions, which are an arrangement: as many positions as
    entries, none twice.  With a key and a non-negative limit exactly one
    such request is posted.  (A negative limit makes [random.sample]
    raise; the handler turns that into an error result and nothing is
    posted.)

    The sample is uniform as far as the generator is.  Every arrangement
    is posted for some outputs of the generator.  On a list of at most
    [setsize] URLs, where [random.sample] reads one output per entry and
    reduces the [i]-th to a number below [n - i], two generators that
    pick the same arrangement agree on all these numbers: the tuples of
    numbers and the arrangements correspond one to one, so that numbers
    that are uniform and independent make every arrangement equally
    likely.  On a longer list, where [random.sample] reduces every output
    to a position below [n] and draws again when the position is taken,
    relabelling the positions the outputs point at by a permutation of
    the positions relabels the arrangement picked by that permutation:
    positions that are uniform and independent make any two arrangements
    equally likely. *)
Theorem bing_payload_is_sample
        (env : Env) (w : World) (api_key : option string)
        (urls : list string) (site_url : string) (limit : Z) :
  (exists r w' new,
      BingSubmitter.submit_urls api_key urls site_url limit env w = (inr r, w')
      /\ sent w' = sent w ++ new
      /\ Forall (fun req =>
                   exists url_list ps,
                     req_json req
                     = JObj [("siteUrl", JStr site_url);
                             ("urlList", JArr (map JStr url_list))]
                     /\ len url_list = Z.min (len urls) limit
                     /\ len url_list <= limit
                     /\ (forall u, u ∈ url_list -> u ∈ urls)
                     /\ sampled_positions (rand env) (draws w) (length urls)
                                          (Z.min (len urls) limit) = Some ps
                     /\ arrangement (length urls) (Z.min (len urls) limit) ps
                     /\ at_positions urls ps url_list)
                new
      /\ (PyStr.truthy_opt api_key = true -> 0 <= limit -> length new = 1%nat))
  /\ (forall ps : list nat,
         PyStr.truthy_opt api_key = true ->
         arrangement (length urls) (Z.min (len urls) limit) ps ->
         exists g r w' req url_list,
           BingSubmitter.submit_urls api_key urls site_url limit
                                     (with_rand env g) w = (inr r, w')
           /\ sent w' = sent w ++ [req]
           /\ req_json req
              = JObj [("siteUrl", JStr site_url);
                      ("urlList", JArr (map JStr url_list))]
           /\ at_positions urls ps url_list)
  /\ (0 <= limit ->
      len urls <= Random.setsize (Z.min (len urls) limit) ->
      forall g g' : Generator,
        sampled_positions g (draws w) (length urls) (Z.min (len urls) limit)
        = sampled_positions g' (draws w) (length urls) (Z.min (len urls) limit) ->
        forall i : nat,
          (i < Z.to_nat (Z.min (len urls) limit))%nat ->
          (raw g (draws w + i) mod (length urls - i)
           = raw g' (draws w + i) mod (length urls - i))%nat)
  /\ (Random.setsize (Z.min (len urls) limit) < len urls ->
      forall (f : nat -> nat) (g g' : Generator) (ps : list nat) (t' : nat),
        (forall a b, (a < length urls)%nat -> (b < length urls)%nat ->
                     f a = f b -> a = b) ->
        (forall a, (a < length urls)%nat -> (f a < length urls)%nat) ->
        Random.sample g (draws w) (seq 0 (length urls)) (Z.min (len urls) limit)
        = inr (ps, t') ->
        (forall s, (draws w <= s < t')%nat ->
                   (raw g' s mod length urls = f (raw g s mod length urls))%nat) ->
        sampled_positions g' (draws w) (length urls) (Z.min (len urls) limit)
        = Some (f <$> ps)).
Proof.
  pose proof (len_nonneg urls) as Hlen.
  assert (Hrun : forall e : Env, forall key, key <> "" -> 0 <= limit ->
            exists r t url_list ps,
              BingSubmitter.submit_urls (Some key) urls site_url limit e w
              = (inr r,
                 mkWorld (log w)
                         (sent w ++ [mkRequest
                                       (BingSubmitter.base_url +:+ "?apikey=" +:+ key)
                                       BingSubmitter.headers
                                       (BingSubmitter.data site_url url_list) 20])
                         t)
              /\ len url_list = Z.min (len urls) limit
              /\ (forall u, u ∈ url_list -> u ∈ urls)
              /\ sampled_positions (rand e) (draws w) (length urls)
                                   (Z.min (len urls) limit) = Some ps
              /\ arrangement (length urls) (Z.min (len urls) limit) ps
              /\ at_positions urls ps url_list).
  { intros e key Hkey Hlim.
    destruct (RandomFacts.sample_total (rand e) (draws w) urls
                                       (Z.min (len urls) limit))
      as (url_list & t & rest & Hs & Hk & Hp & _); [lia|].
    destruct (bing_run e w urls site_url key limit url_list t Hkey Hs)
      as (r & Hr & _).
    destruct (RandomFacts.sample_at_sampled_positions _ _ _ _ _ _ Hs)
      as (ps & Hps & _ & Hat).
    exists r, t, url_list, ps. split; [exact Hr|]. split; [done|]. split.
    - intros u Hu. rewrite <- Hp. apply elem_of_app. by left.
    - split; [done|]. split; [|done].
      by apply (RandomFacts.sampled_positions_arrangement _ _ _ _ _ Hps). }
  split; [|split; [|split]].
  - destruct api_key as [key|].
    2:{ exists missing_key, w, []. split; [done|].
        split; [by rewrite app_nil_r|]. split; [constructor | discriminate]. }
    destruct (decide (key = "")) as [->|Hkey].
    { exists missing_key, w, []. split; [done|].
      split; [by rewrite app_nil_r|]. split; [constructor | discriminate]. }
    destruct (Z_le_gt_dec 0 limit) as [Hlim|Hlim].
    + destruct (Hrun env key Hkey Hlim)
        as (r & t & url_list & ps & Hr & Hk & Hin & Hps & Harr & Hat).
      eexists r, _, [_]. split; [exact Hr|]. split; [done|]. split; [|done].
      constructor; [|constructor]. exists url_list, ps. simpl.
      split; [done|]. split; [done|]. split; [lia|]. done.
    + destruct (bing_run_no_sample env w urls site_url key limit _ Hkey
                  (RandomFacts.sample_raises _ _ urls (Z.min (len urls) limit)
                     ltac:(left; lia))) as (r & Hr & _).
      exists r, w, []. split; [exact Hr|]. split; [by rewrite app_nil_r|].
      split; [constructor|]. lia.
  - intros ps Hkey Harr.
    destruct api_key as [key|]; [|done].
    destruct (decide (key = "")) as [->|Hne]; [done|].
    pose proof (RandomFacts.arrangement_length _ _ _ Harr) as Hk.
    destruct (RandomFacts.sampled_positions_reach (draws w) _ _ _ Harr)
      as [g Hg].
    destruct (Hrun (with_rand env g) key Hne ltac:(lia))
      as (r & t & url_list & ps' & Hr & _ & _ & Hps & _ & Hat).
    simpl in Hps. rewrite Hg in Hps. injection Hps as <-.
    exists g, r. do 3 eexists. split; [exact Hr|]. done.
  - intros Hlim Hn g g' Heq i Hi. unfold len in *.
    apply (RandomFacts.sampled_positions_injective
             g g' (draws w) (length urls) (Z.min (Z.of_nat (length urls)) limit));
      [lia | done | done | done].
  - intros Hn f g g' ps t' Hinj Hran Hs Hrel. unfold len in *.
    unfold sampled_positions.
    by rewrite (RandomFacts.sampled_positions_relabel
                  f g g' (draws w) (length urls) _ ps t' Hn Hinj Hran Hs Hrel).
Qed.

(** The batch submitter run on three URLs with limit 2: the generator of
    the fixture picks the first and the third. *)
Lemma bing_payload_is_sample_witness :
  let env := Fixture.env true (inr Fixture.sitemap3) (inr Fixture.ok_response) in
  exists r w' new,
    BingSubmitter.submit_urls (Some "k") Fixture.three_urls "https://a.example" 2
                              env world0 = (inr r, w')
    /\ sent w' = sent world0 ++ new
    /\ Forall (fun req =>
                 exists url_list ps,
                   req_json req
                   = JObj [("siteUrl", JStr "https://a.example");
                           ("urlList", JArr (map JStr url_list))]
                   /\ len url_list = Z.min (len Fixture.three_urls) 2
                   /\ len url_list <= 2
                   /\ (forall u, u ∈ url_list -> u ∈ Fixture.three_urls)
                   /\ sampled_positions (rand env) (draws world0)
                                        (length Fixture.three_urls)
                                        (Z.min (len Fixture.three_urls) 2) = Some ps
                   /\ arrangement (length Fixture.three_urls)
                                  (Z.min (len Fixture.three_urls) 2) ps
                   /\ at_positions Fixture.three_urls ps url_list)
              new
    /\ (PyStr.truthy_opt (Some "k") = true -> 0 <= 2 -> length new = 1%nat).
Proof.
  intros env.
  apply (proj1 (bing_payload_is_sample env world0 (Some "k") Fixture.three_urls
                                       "https://a.example" 2)).
Defined.

(** The positions picked on that run. *)
Example bing_sample_of_two :
  sampled_positions (scripted (repeat 0%nat 32)) 0 3 2 = Some [0; 2]%nat.
Proof. reflexivity. Qed.

(** Twenty-two positions are more than [setsize 2 = 21]: the second
    branch reduces both outputs to the same bound.  With the outputs 3
    and 21 it picks the positions 3 and 21, where the first branch would
    pick 3 and 0. *)
Example second_branch_of_sample :
  sampled_positions (scripted [3; 21]%nat) 0 22 2 = Some [3; 21]%nat
  /\ drawn_positions (raw (scripted [3; 21]%nat)) 22 2 = Some [3; 0]%nat.
Proof. split; reflexivity. Qed.

(** A collision costs one more output: with the outputs 3, 3 and 21 the
    second 3 is drawn again, and three outputs are consumed. *)
Example second_branch_draws_again :
  Random.sample (scripted [3; 3; 21]%nat) 0 (seq 0 22) 2
  = inr ([3; 21]%nat, 3%nat).
Proof. reflexivity. Qed.

(** Ten of a hundred positions, as [main] asks for them: five outputs
    are collisions, fifteen are consumed. *)
Example ten_of_a_hundred :
  Random.sample
    (scripted [5; 5; 5; 7; 7; 90; 1; 2; 3; 4; 5; 6; 7; 8; 9; 10; 11; 12]%nat)
    0 (seq 0 100) 10
  = inr ([5; 7; 90; 1; 2; 3; 4; 6; 8; 9]%nat, 15%nat).
Proof. by vm_compute. Qed.



(** The order does change on a run: with a generator that starts with
    the outputs [0], [0] and [0], three URLs are sent as first, third,
    second. *)
Example bing_order_differs :
  sent (snd (BingSubmitter.submit_urls
               (Some "k") Fixture.three_urls "https://a.example" 10
               (Fixture.env true (inr Fixture.sitemap3) (inr Fixture.ok_response)) world0))
  = [mkRequest "https://ssl.bing.com/webmaster/api.svc/json/SubmitUrlbatch?apikey=k"
               BingSubmitter.headers
               (JObj [("siteUrl", JStr "https://a.example");
                      ("urlList", JArr [JStr "https://a.example/1";
                                        JStr "https://a.example/3";
                                        JStr "https://a.example/2"])])
               20].
Proof. reflexivity. Qed.

(** C3, as stated, fails for the batch submitter: a 200 response whose
    body is not a JSON document makes [response.json()] raise inside the
    [try], and the handler returns an error result. *)
Lemma bing_200_without_json_is_error :
  let reply :=
    mkResponse 200 "<html>ok</html>"
               (inl (RequestException "Expecting value: line 1 column 1 (char 0)")) in
  let env := Fixture.env true (inr Fixture.sitemap3) (inr reply) in
  exists r w' req,
    BingSubmitter.submit_urls (Some "k") Fixture.three_urls "https://a.example" 10
                              env world0 = (inr r, w')
    /\ sent w' = [req]
    /\ session_post env req = inr reply
    /\ status_code reply = 200
    /\ status r = "error"
    /\ status r <> "success".
Proof. intros reply env. do 3 eexists. by repeat split. Qed.

(** C3, amended.  For every call that reaches the HTTP layer (a key is
    configured and, for the batch submitter, the limit is not negative),
    exactly one request is posted and the response decides the result:
    - batch submitter, status 200, body decodable as JSON: a success
      result carrying the decoded body;
    - batch submitter, status 200, body not decodable: an error result
      without a response field;
    - batch submitter, any other status: an error result whose message
      ends in the decimal status code and whose response field is the raw
      body text;
    - push submitter, status 200 or 202: a success result carrying the raw
      body text;
    - push submitter, any other status: an error result whose message
      ends in the decimal status code and whose response field is the raw
      body text. *)
Theorem http_status_decides_result
        (env : Env) (w : World) (key : string)
        (urls : list string) (site_url : string) (limit : Z) :
  key <> "" ->
  0 <= limit ->
  (exists r w' req,
      BingSubmitter.submit_urls (Some key) urls site_url limit env w = (inr r, w')
      /\ sent w' = sent w ++ [req]
      /\ forall resp,
          session_post env req = inr resp ->
          (status_code resp = 200 ->
           forall body, resp_json resp = inr body ->
                        status r = "success" /\ response r = Some (Decoded body))
          /\ (status_code resp = 200 ->
              forall e, resp_json resp = inl e ->
                        status r = "error" /\ response r = None)
          /\ (status_code resp <> 200 ->
              status r = "error"
              /\ message r = "提交失败，状态码: " +:+ PyStr.of_Z (status_code resp)
              /\ response r = Some (Raw (resp_text resp))))
  /\ (exists r w' req,
         IndexNowSubmitter.submit_urls (Some key) urls site_url env w = (inr r, w')
         /\ sent w' = sent w ++ [req]
         /\ forall resp,
             session_post env req = inr resp ->
             (status_code resp = 200 \/ status_code resp = 202 ->
              status r = "success" /\ response r = Some (Raw (resp_text resp)))
             /\ (status_code resp <> 200 -> status_code resp <> 202 ->
                 status r = "error"
                 /\ message r = "提交失败，状态码: " +:+ PyStr.of_Z (status_code resp)
                 /\ response r = Some (Raw (resp_text resp)))).
Proof.
  intros Hkey Hlim. pose proof (len_nonneg urls) as Hlen. split.
  - destruct (RandomFacts.sample_total
                (rand env) (draws w) urls (Z.min (len urls) limit))
      as (url_list & t_s & rest & Hs & _ & _ & _); [lia|].
    destruct (bing_run env w urls site_url key limit url_list t_s Hkey Hs)
      as (r & Hr & Hreply).
    do 3 eexists. split; [exact Hr|]. split; [done|].
    simpl. intros resp Hresp. rewrite Hresp in Hreply.
    destruct (Z.eqb_spec (status_code resp) 200) as [H200|H200].
    + split; [|split; [|done]].
      * intros _ body Hbody. rewrite Hbody in Hreply. by subst r.
      * intros _ e He. by rewrite He in Hreply.
    + split; [done|]. split; [done|]. intros _. by subst r.
  - destruct (indexnow_run env w urls site_url key Hkey) as (r & Hr & Hreply).
    do 3 eexists. split; [exact Hr|]. split; [done|].
    simpl. intros resp Hresp. rewrite Hresp in Hreply.
    destruct (Z.eqb_spec (status_code resp) 200) as [H200|H200];
      destruct (Z.eqb_spec (status_code resp) 202) as [H202|H202];
      simpl in Hreply; subst r; simpl; split; try done; intros [|]; done.
Qed.

(** Both submitters against a server that answers 404. *)
Lemma http_status_decides_result_witness :
  let reply := mkResponse 404 "Not Found" (inl (RequestException "Expecting value")) in
  let env := Fixture.env true (inr Fixture.sitemap3) (inr reply) in
  ("k" <> "" /\ 0 <= 10)
  /\ (exists r w' req,
      BingSubmitter.submit_urls (Some "k") Fixture.three_urls "https://a.example" 10
                                env world0 = (inr r, w')
      /\ sent w' = sent world0 ++ [req]
      /\ forall resp,
          session_post env req = inr resp ->
          (status_code resp = 200 ->
           forall body, resp_json resp = inr body ->
                        status r = "success" /\ response r = Some (Decoded body))
          /\ (status_code resp = 200 ->
              forall e, resp_json resp = inl e ->
                        status r = "error" /\ response r = None)
          /\ (status_code resp <> 200 ->
              status r = "error"
              /\ message r = "提交失败，状态码: " +:+ PyStr.of_Z (status_code resp)
              /\ response r = Some (Raw (resp_text resp))))
  /\ (exists r w' req,
         IndexNowSubmitter.submit_urls (Some "k") Fixture.three_urls
                                       "https://a.example" env world0 = (inr r, w')
         /\ sent w' = sent world0 ++ [req]
         /\ forall resp,
             session_post env req = inr resp ->
             (status_code resp = 200 \/ status_code resp = 202 ->
              status r = "success" /\ response r = Some (Raw (resp_text resp)))
             /\ (status_code resp <> 200 -> status_code resp <> 202 ->
                 status r = "error"
                 /\ message r = "提交失败，状态码: " +:+ PyStr.of_Z (status_code resp)
                 /\ response r = Some (Raw (resp_text resp)))).
Proof.
  intros reply env. split; [split; [discriminate | by vm_compute]|].
  apply (http_status_decides_result env world0 "k" Fixture.three_urls
                                    "https://a.example" 10).
  - discriminate.
  - by vm_compute.
Defined.

(** The results for 404, 500, 200 and 202 on concrete runs. *)
Example bing_404 :
  fst (BingSubmitter.submit_urls
         (Some "k") Fixture.three_urls "https://a.example" 10
         (Fixture.env true (inr Fixture.sitemap3)
                      (inr (mkResponse 404 "Not Found" (inl (RequestException "no JSON")))))
         world0)
  = inr (mkResult "error" "提交失败，状态码: 404" (Some (Raw "Not Found"))).
Proof. reflexivity. Qed.

Example indexnow_500 :
  fst (IndexNowSubmitter.submit_urls
         (Some "k") Fixture.three_urls "https://a.example"
         (Fixture.env true (inr Fixture.sitemap3)
                      (inr (mkResponse 500 "oops" (inl (RequestException "no JSON")))))
         world0)
  = inr (mkResult "error" "提交失败，状态码: 500" (Some (Raw "oops"))).
Proof. reflexivity. Qed.

Example bing_200 :
  fst (BingSubmitter.submit_urls
         (Some "k") Fixture.three_urls "https://a.example" 10
         (Fixture.env true (inr Fixture.sitemap3) (inr Fixture.ok_response)) world0)
  = inr (mkResult "success" "成功提交 3 个URL到必应" (Some (Decoded (JObj [])))).
Proof. reflexivity. Qed.

Example indexnow_202 :
  fst (IndexNowSubmitter.submit_urls
         (Some "k") Fixture.three_urls "https://a.example"
         (Fixture.env true (inr Fixture.sitemap3)
                      (inr (mkResponse 202 "" (inl (RequestException "no JSON")))))
         world0)
  = inr (mkResult "success" "成功提交, 状态码: 202" (Some (Raw ""))).
Proof. reflexivity. Qed.

(** ** The sitemap parser *)

(** What one item contributes to the result. *)
Lemma visit_app (urls : list string) (item : Element) :
  SitemapParser.visit urls item = urls ++ SitemapParser.visit [] item.
Proof.
  unfold SitemapParser.visit.
  destruct (ET.find "link" item) as [l|]; [|by rewrite app_nil_r].
  destruct (text l) as [t|]; [|by rewrite app_nil_r].
  destruct (PyStr.truthy t); [done | by rewrite app_nil_r].
Qed.

(** The loop visits the items in order and concatenates what each one
    contributes. *)
Lemma fold_visit (items : list Element) :
  forall urls,
    fold_left SitemapParser.visit items urls
    = urls ++ flat_map (SitemapParser.visit []) items.
Proof.
  induction items as [|item items IH]; intros urls; simpl.
  - by rewrite app_nil_r.
  - rewrite IH, (visit_app urls item). by rewrite <- app_assoc.
Qed.

(** When every item has a first [link] child with non-empty text, the
    loop yields one string per item, in order: the stripped texts. *)
Lemma collect_all_links (items : list Element) (texts : list string) :
  Forall2 (fun item t =>
             exists l, ET.find "link" item = Some l /\ text l = Some t /\ t <> "")
          items texts ->
  fold_left SitemapParser.visit items [] = map PyStr.strip texts.
Proof.
  rewrite fold_visit. simpl.
  induction 1 as [|item t items texts (l & Hl & Ht & Hne) _ IH]; simpl; [done|].
  rewrite IH. unfold SitemapParser.visit at 1.
  by rewrite Hl, Ht, (truthy_nonempty _ Hne).
Qed.

Section Parser.

Variable env : Env.
Variable w : World.
Variable sitemap_file : string.

(** With the module-level [logger] unbound, every call ends in a
    [NameError]: on success the call to [logger.info] raises it, the
    handler for [Exception] catches it and raises it again from its own
    call to [logger.error]; on failure the handler's call raises it. *)
Lemma parse_unbound_logger :
  logger_bound env = false ->
  SitemapParser.parse_rss_sitemap sitemap_file env w
  = (inl (NameError "name 'logger' is not defined"), w).
Proof.
  intros Hb. unfold SitemapParser.parse_rss_sitemap. unfold_M. rewrite Hb.
  destruct (et_parse env sitemap_file) as [e|root]; simpl.
  - by destruct e; rewrite Hb.
  - by rewrite Hb.
Qed.

(** With the module-level [logger] bound, the call never raises: it
    returns the collected links and logs their number, or logs the error
    and returns the empty list. *)
Lemma parse_bound_logger :
  logger_bound env = true ->
  exists urls record,
    SitemapParser.parse_rss_sitemap sitemap_file env w
    = (inr urls, mkWorld (log w ++ [record]) (sent w) (draws w))
    /\ match et_parse env sitemap_file with
       | inr root => urls = SitemapParser.collect root /\ log_level record = INFO
       | inl _ => urls = [] /\ log_level record = ERROR
       end.
Proof.
  intros Hb. unfold SitemapParser.parse_rss_sitemap. unfold_M. rewrite Hb.
  destruct (et_parse env sitemap_file) as [e|root]; simpl.
  - destruct e; rewrite Hb; simpl; eauto.
  - eauto.
Qed.

(** The content of C4 when the logger is available: a sitemap whose [N]
    items each have a first [link] child with non-empty text yields
    exactly the [N] stripped texts, in document order. *)
Lemma parse_returns_links (root : Element) (texts : list string) :
  logger_bound env = true ->
  et_parse env sitemap_file = inr root ->
  Forall2 (fun item t =>
             exists l, ET.find "link" item = Some l /\ text l = Some t /\ t <> "")
          (ET.findall_descendants "item" root) texts ->
  exists w',
    SitemapParser.parse_rss_sitemap sitemap_file env w
    = (inr (map PyStr.strip texts), w')
    /\ length (map PyStr.strip texts)
       = length (ET.findall_descendants "item" root).
Proof.
  intros Hb Hroot Hitems.
  destruct (parse_bound_logger Hb) as (urls & record & Hrun & Hurls).
  rewrite Hroot in Hurls. destruct Hurls as [-> _].
  unfold SitemapParser.collect in Hrun.
  rewrite (collect_all_links _ _ Hitems) in Hrun.
  eexists. split; [exact Hrun|].
  rewrite length_map. symmetry. by eapply Forall2_length.
Qed.

End Parser.

(** One round of the loop, lines 39-41, case by case: a string is
    appended exactly when the item's first [link] child exists and its
    text is non-empty before trimming; the appended string is the trimmed
    text, which is the empty string when the text is nothing but
    whitespace.  Nothing is appended when the item has no [link] child or
    the text of the first one is [None] or empty. *)
Theorem link_text_is_tested_before_trimming (urls : list string) (item : Element) :
  (forall l t,
      ET.find "link" item = Some l -> text l = Some t -> t <> "" ->
      SitemapParser.visit urls item = urls ++ [PyStr.strip t])
  /\ (forall l t,
         ET.find "link" item = Some l -> text l = Some t -> t <> "" ->
         PyStr.strip t = "" ->
         SitemapParser.visit urls item = urls ++ [""])
  /\ (ET.find "link" item = None
      \/ (exists l, ET.find "link" item = Some l
                    /\ (text l = None \/ text l = Some "")) ->
      SitemapParser.visit urls item = urls).
Proof.
  unfold SitemapParser.visit. repeat split.
  - intros l t -> -> Hne. by rewrite (truthy_nonempty _ Hne).
  - intros l t -> -> Hne <-. by rewrite (truthy_nonempty _ Hne).
  - intros [-> | (l & -> & [-> | ->])]; done.
Qed.

Lemma link_text_is_tested_before_trimming_witness :
  let item := Fixture.item (Some "   ") in
  let l := Elem "link" (Some "   ") [] in
  (ET.find "link" item = Some l /\ text l = Some "   " /\ "   " <> ""
   /\ PyStr.strip "   " = "")
  /\ SitemapParser.visit ["https://a.example/1"] item
     = ["https://a.example/1"] ++ [""].
Proof.
  intros item l. split; [by repeat split|].
  apply (proj1 (proj2 (link_text_is_tested_before_trimming
                         ["https://a.example/1"] item)) l "   ");
    [reflexivity | reflexivity | discriminate | reflexivity].
Defined.

(** C4: the code at a failing input.  Run as the program runs it (the
    module-level [logger] is never bound), the parser does not return the
    three links of a well-formed sitemap with three [item/link] entries:
    the loop collects them, and the [NameError] of the logging call that
    follows escapes.  (What the claim says holds once the name is bound:
    [parse_returns_links].) *)
Theorem parse_well_formed_raises :
  SitemapParser.collect Fixture.sitemap3 = Fixture.three_urls
  /\ SitemapParser.parse_rss_sitemap
       "sitemap.xml"
       (Fixture.env false (inr Fixture.sitemap3) (inr Fixture.ok_response)) world0
     = (inl (NameError "name 'logger' is not defined"), world0).
Proof. by split. Qed.

(** C5: the code at failing inputs.  Run as the program runs it, the
    parser raises to its caller for a missing file and for malformed XML
    alike, and logs nothing: each handler's own logging call goes through
    the unbound module-level [logger].  (What the claim says holds once
    the name is bound: [parse_bound_logger].) *)
Theorem parse_failure_raises :
  SitemapParser.parse_rss_sitemap
    "missing.xml"
    (Fixture.env false (inr Fixture.sitemap3) (inr Fixture.ok_response)) world0
  = (inl (NameError "name 'logger' is not defined"), world0)
  /\ SitemapParser.parse_rss_sitemap
       "sitemap.xml"
       (Fixture.env false (inl (ParseError "syntax error: line 1, column 0"))
                    (inr Fixture.ok_response))
       world0
     = (inl (NameError "name 'logger' is not defined"), world0).
Proof. by split. Qed.

(** ** Orchestration *)

Lemma bind_returned {A B : Type} (c : M A) (k : A -> M B)
      (env : Env) (w w1 : World) (a : A) :
  c env w = (inr a, w1) -> (c ≫= k) env w = k a env w1.
Proof. intros H. unfold mbind, M_bind. by rewrite H. Qed.

Lemma bind_raised {A B : Type} (c : M A) (k : A -> M B)
      (env : Env) (w w1 : World) (e : exn) :
  c env w = (inl e, w1) -> (c ≫= k) env w = (inl e, w1).
Proof. intros H. unfold mbind, M_bind. by rewrite H. Qed.

(** The origin of a URL with at least two slashes: what precedes the
    first slash, two slashes, what stands between the second and the
    third. *)
Lemma site_url_of_split (first : string) (rest : list string)
      (scheme between host : string) (tail : list string) :
  PyStr.split "/" first = scheme :: between :: host :: tail ->
  site_url_of (first :: rest) = inr (scheme +:+ "//" +:+ host).
Proof. intros H. unfold site_url_of, getitem. simpl. by rewrite H. Qed.

(** A URL with fewer than two slashes has no third component. *)
Lemma site_url_of_short (first : string) (rest : list string) :
  (length (PyStr.split "/" first) < 3)%nat ->
  site_url_of (first :: rest) = inl (IndexError "list index out of range").
Proof.
  intros H. unfold site_url_of, getitem. simpl.
  destruct (PyStr.split "/" first) as [|a [|b [|c l]]]; simpl in *; try done; lia.
Qed.

(** [report] only logs. *)
Lemma report_run (result : Result) (env : Env) (w : World) :
  exists records,
    report result env w = (inr tt, mkWorld (log w ++ records) (sent w) (draws w)).
Proof.
  unfold report, emit.
  destruct (String.eqb (status result) "success"); [by eexists [_]|].
  destruct (String.eqb (status result) "error"); [by eexists [_]|].
  exists []. unfold mret, M_ret. destruct w; simpl. by rewrite app_nil_r.
Qed.

(** X21. Line 281 takes what stands before the first slash of the first
    URL, then two slashes, then what stands between its second and third
    slash (scheme, [//], host); for ["https://example.com/a/b"] that is
    ["https://example.com"].  Provided the module-level [logger] is bound
    (which no run of the program as shipped achieves), whenever [main]
    gets as far as submitting (the logger is set up, the sitemap yields
    at least one URL, both keys are set, the first URL has its two
    slashes), it posts exactly two requests, and this one value is the
    [siteUrl] of the batch request and the [host] of the push request. *)
Theorem site_origin_feeds_both_submitters :
  (forall rest,
      site_url_of ("https://example.com/a/b" :: rest) = inr "https://example.com")
  /\ (forall (env : Env) (w : World) (args : Args) (root : Element)
             (first : string) (rest : list string)
             (scheme between host : string) (tail : list string)
             (bing_key indexnow_key : string),
         Logger_init (arg_log args) env w = (inr tt, w) ->
         logger_bound env = true ->
         et_parse env (arg_sitemap args) = inr root ->
         SitemapParser.collect root = first :: rest ->
         getenv env "BING_API_KEY" = Some bing_key -> bing_key <> "" ->
         getenv env "INDEXNOW_API_KEY" = Some indexnow_key -> indexnow_key <> "" ->
         PyStr.split "/" first = scheme :: between :: host :: tail ->
         exists w' url_list,
           main args env w = (inr tt, w')
           /\ sent w'
              = sent w
                ++ [mkRequest
                      (BingSubmitter.base_url +:+ "?apikey=" +:+ bing_key)
                      BingSubmitter.headers
                      (JObj [("siteUrl", JStr (scheme +:+ "//" +:+ host));
                             ("urlList", JArr (map JStr url_list))])
                      20;
                    mkRequest
                      IndexNowSubmitter.base_url
                      IndexNowSubmitter.headers
                      (JObj [("host", JStr (scheme +:+ "//" +:+ host));
                             ("key", JStr indexnow_key);
                             ("keyLocation",
                              JStr ((scheme +:+ "//" +:+ host) +:+ "/"
                                    +:+ indexnow_key +:+ ".txt"));
                             ("urlList", JArr (map JStr (first :: rest)))])
                      20]).
Proof.
  split; [done|].
  intros env w args root first rest scheme between host tail bk ik
         Hlog Hb Hroot Hurls Hbk Hbkne Hik Hikne Hsplit.
  destruct (parse_bound_logger env w (arg_sitemap args) Hb)
    as (urls & rec & Hparse & Hres).
  rewrite Hroot, Hurls in Hres. destruct Hres as [-> _].
  set (site := scheme +:+ "//" +:+ host).
  pose (w1 := mkWorld
                (((log w ++ [rec]) ++ [mkLog INFO ("网站URL: " +:+ site) None])
                 ++ [mkLog INFO "自动提交到必应搜索引擎..." None])
                (sent w) (draws w)).
  destruct (RandomFacts.sample_total
                (rand env) (draws w1) (first :: rest)
              (Z.min (len (first :: rest)) 10))
    as (url_list & t_s & _ & Hs & _ & _ & _);
    [pose proof (len_nonneg (first :: rest)); lia|].
  destruct (bing_run env w1 (first :: rest) site bk 10 url_list t_s Hbkne Hs)
    as (r1 & Hr1 & _).
  match type of Hr1 with _ = (_, ?w2) =>
    destruct (report_run r1 env w2) as (recs1 & Hrep1) end.
  match type of Hrep1 with _ = (_, mkWorld ?l ?s ?d) =>
    pose (w4 := mkWorld (l ++ [mkLog INFO "自动提交到IndexNow..." None]) s d) end.
  destruct (indexnow_run env w4 (first :: rest) site ik Hikne) as (r2 & Hr2 & _).
  match type of Hr2 with _ = (_, ?w5) =>
    destruct (report_run r2 env w5) as (recs2 & Hrep2) end.
  match type of Hrep2 with _ = (_, ?w6) => exists w6, url_list end.
  split; [|simpl; by rewrite <- app_assoc].
  unfold main.
  rewrite (bind_returned _ _ _ _ _ _ Hlog).
  rewrite (bind_returned _ _ _ _ _ _ Hparse).
  erewrite bind_returned by reflexivity.
  erewrite bind_returned by reflexivity.
  rewrite Hbk, Hik.
  assert (Hkeys : PyStr.truthy_opt (Some bk) && PyStr.truthy_opt (Some ik) = true)
    by (simpl; by rewrite (truthy_nonempty _ Hbkne), (truthy_nonempty _ Hikne)).
  rewrite Hkeys. cbn [negb].
  rewrite (site_url_of_split _ _ _ _ _ _ Hsplit).
  erewrite bind_returned by reflexivity.
  erewrite bind_returned by reflexivity.
  erewrite bind_returned by reflexivity.
  erewrite bind_returned by exact Hr1.
  erewrite bind_returned by exact Hrep1.
  erewrite bind_returned by reflexivity.
  erewrite bind_returned by exact Hr2.
  exact Hrep2.
Qed.

(** [main] on the three-link sitemap, logger bound, both keys set. *)
Lemma site_origin_feeds_both_submitters_witness :
  let env := Fixture.env true (inr Fixture.sitemap3) (inr Fixture.ok_response) in
  exists w' url_list,
    main (mkArgs "sitemap.xml" None) env world0 = (inr tt, w')
    /\ sent w'
       = sent world0
         ++ [mkRequest
               (BingSubmitter.base_url +:+ "?apikey=" +:+ "k")
               BingSubmitter.headers
               (JObj [("siteUrl", JStr ("https:" +:+ "//" +:+ "a.example"));
                      ("urlList", JArr (map JStr url_list))])
               20;
             mkRequest
               IndexNowSubmitter.base_url
               IndexNowSubmitter.headers
               (JObj [("host", JStr ("https:" +:+ "//" +:+ "a.example"));
                      ("key", JStr "k");
                      ("keyLocation",
                       JStr (("https:" +:+ "//" +:+ "a.example") +:+ "/"
                             +:+ "k" +:+ ".txt"));
                      ("urlList",
                       JArr (map JStr ("https://a.example/1"
                                         :: ["https://a.example/2";
                                             "https://a.example/3"])))])
               20].
Proof.
  intros env.
  apply (proj2 site_origin_feeds_both_submitters
               env world0 (mkArgs "sitemap.xml" None) Fixture.sitemap3
               "https://a.example/1"
               ["https://a.example/2"; "https://a.example/3"]
               "https:" "" "a.example" ["1"] "k" "k");
    solve [reflexivity | discriminate].
Defined.

(** Run as the program runs it, [main] never gets past the parser. *)
Lemma main_unbound_logger (env : Env) (w : World) (args : Args) :
  Logger_init (arg_log args) env w = (inr tt, w) ->
  logger_bound env = false ->
  main args env w = (inl (NameError "name 'logger' is not defined"), w).
Proof.
  intros Hlog Hb. unfold main.
  rewrite (bind_returned _ _ _ _ _ _ Hlog).
  by rewrite (bind_raised _ _ _ _ _ _ (parse_unbound_logger env w _ Hb)).
Qed.

(** C8: the code at a failing input.  Line 281 by itself does what the
    claim says: on a list that starts with ["https://example.com/a/b"] it
    gives ["https://example.com"].  But run as the program runs it (the
    module-level [logger] is never bound), [main] does not get to line
    281: on a sitemap whose one link is that URL, with both keys set, the
    parser collects the URL, its logging call raises [NameError], and
    [main] ends with that exception; no origin is derived or logged and
    neither submitter receives anything.  (What the claim says holds once
    the name is bound: [site_origin_feeds_both_submitters].) *)
Theorem site_origin_is_never_derived :
  let root := Fixture.rss [Fixture.item (Some "https://example.com/a/b")] in
  let env := Fixture.env false (inr root) (inr Fixture.ok_response) in
  SitemapParser.collect root = ["https://example.com/a/b"]
  /\ site_url_of ["https://example.com/a/b"] = inr "https://example.com"
  /\ main (mkArgs "sitemap.xml" None) env world0
     = (inl (NameError "name 'logger' is not defined"), world0)
  /\ sent (snd (main (mkArgs "sitemap.xml" None) env world0)) = []
  /\ log (snd (main (mkArgs "sitemap.xml" None) env world0)) = [].
Proof. by repeat split. Qed.

(** C9: the code at a failing input.  An item whose link text is three
    spaces: the text is non-empty before trimming and empty after it, and
    the loop, which tests the text before it trims it (lines 40-41),
    appends the empty string.  The list the parser then returns (logger
    bound) is [['']], which is not empty: it passes the guard
    [if not urls] of [main], and with both keys set line 281 raises
    [IndexError] on the empty string; [main] ends with that exception,
    having posted nothing.  An item whose link has no text at all is
    skipped, as the claim has it: the list is empty and [main] stops at
    the guard. *)
Theorem whitespace_link_defeats_the_guard :
  let blank := Fixture.rss [Fixture.item (Some "   ")] in
  let textless := Fixture.rss [Fixture.item None] in
  let env := fun root => Fixture.env true (inr root) (inr Fixture.ok_response) in
  "   " <> ""
  /\ PyStr.strip "   " = ""
  /\ SitemapParser.collect blank = [""]
  /\ fst (SitemapParser.parse_rss_sitemap "sitemap.xml" (env blank) world0)
     = inr [""]
  /\ fst (main (mkArgs "sitemap.xml" None) (env blank) world0)
     = inl (IndexError "list index out of range")
  /\ sent (snd (main (mkArgs "sitemap.xml" None) (env blank) world0)) = []
  /\ SitemapParser.collect textless = []
  /\ fst (main (mkArgs "sitemap.xml" None) (env textless) world0) = inr tt
  /\ sent (snd (main (mkArgs "sitemap.xml" None) (env textless) world0)) = [].
Proof. by repeat split. Qed.

(** C7: the code at failing inputs.  After argument parsing and logger
    setup, exceptions do escape from [main]:
    - run as the program runs it (module-level [logger] unbound), on a
      well-formed sitemap, the [NameError] of the parser's logging call
      escapes;
    - with that name bound, on a sitemap whose first link is
      [example.com] (no slash), the site-origin derivation at line 281
      raises [IndexError] outside any [try], before anything is sent. *)
Theorem main_lets_exceptions_escape :
  main (mkArgs "sitemap.xml" None)
       (Fixture.env false (inr Fixture.sitemap3) (inr Fixture.ok_response)) world0
  = (inl (NameError "name 'logger' is not defined"), world0)
  /\ exists w',
      main (mkArgs "sitemap.xml" None)
           (Fixture.env true (inr (Fixture.rss [Fixture.item (Some "example.com")]))
                        (inr Fixture.ok_response))
           world0
      = (inl (IndexError "list index out of range"), w')
      /\ sent w' = [].
Proof. split; [done|]. eexists. by split. Qed.

(** The second failure in general: whenever [main] gets as far as the
    site-origin derivation and the first URL has fewer than two slashes,
    the [IndexError] escapes and nothing has been sent. *)
Lemma main_short_first_url
      (env : Env) (w : World) (args : Args) (root : Element)
      (first : string) (rest : list string) (bing_key indexnow_key : string) :
  Logger_init (arg_log args) env w = (inr tt, w) ->
  logger_bound env = true ->
  et_parse env (arg_sitemap args) = inr root ->
  SitemapParser.collect root = first :: rest ->
  getenv env "BING_API_KEY" = Some bing_key -> bing_key <> "" ->
  getenv env "INDEXNOW_API_KEY" = Some indexnow_key -> indexnow_key <> "" ->
  (length (PyStr.split "/" first) < 3)%nat ->
  exists w',
    main args env w = (inl (IndexError "list index out of range"), w')
    /\ sent w' = sent w.
Proof.
  intros Hlog Hb Hroot Hurls Hbk Hbkne Hik Hikne Hshort.
  destruct (parse_bound_logger env w (arg_sitemap args) Hb)
    as (urls & rec & Hparse & Hres).
  rewrite Hroot, Hurls in Hres. destruct Hres as [-> _].
  eexists. split.
  - unfold main.
    rewrite (bind_returned _ _ _ _ _ _ Hlog).
    rewrite (bind_returned _ _ _ _ _ _ Hparse).
    erewrite bind_returned by reflexivity.
    erewrite bind_returned by reflexivity.
    rewrite Hbk, Hik.
    assert (Hkeys : PyStr.truthy_opt (Some bing_key)
                    && PyStr.truthy_opt (Some indexnow_key) = true)
      by (simpl; by rewrite (truthy_nonempty _ Hbkne), (truthy_nonempty _ Hikne)).
    rewrite Hkeys. cbn [negb].
    rewrite (site_url_of_short _ _ Hshort).
    by erewrite bind_raised by reflexivity.
  - done.
Qed.

(** With the module-level [logger] bound, the parser turns a missing
    file and malformed XML into an empty list and one error record. *)
Example parse_missing_file_bound :
  SitemapParser.parse_rss_sitemap
    "missing.xml"
    (Fixture.env true (inr Fixture.sitemap3) (inr Fixture.ok_response)) world0
  = (inr [], mkWorld [mkLog ERROR "文件未找到: missing.xml" None] [] 0).
Proof. reflexivity. Qed.

Example parse_malformed_bound :
  SitemapParser.parse_rss_sitemap
    "sitemap.xml"
    (Fixture.env true (inl (ParseError "syntax error: line 1, column 0"))
                 (inr Fixture.ok_response))
    world0
  = (inr [],
     mkWorld [mkLog ERROR "XML解析错误: syntax error: line 1, column 0" None] [] 0).
Proof. reflexivity. Qed.

Example parse_three_links_bound :
  SitemapParser.parse_rss_sitemap
    "sitemap.xml"
    (Fixture.env true (inr Fixture.sitemap3) (inr Fixture.ok_response)) world0
  = (inr Fixture.three_urls,
     mkWorld [mkLog INFO "成功解析站点地图，找到 3 个URL" None] [] 0).
Proof. reflexivity. Qed.

(** * Further properties of the code *)

(** ** The submitters: error and edge behaviour *)

(** X1. Neither submitter ever raises: whatever the key, the input, the
    limit, the generator and the transport do, [submit_urls] returns a
    result whose status is ['success'] or ['error'], posts at most one
    request and logs nothing itself. *)
Theorem submitters_never_raise
        (env : Env) (w : World) (api_key : option string)
        (urls : list string) (site_url : string) (limit : Z) :
  (exists r w' new,
      BingSubmitter.submit_urls api_key urls site_url limit env w = (inr r, w')
      /\ (status r = "success" \/ status r = "error")
      /\ sent w' = sent w ++ new /\ (length new <= 1)%nat
      /\ log w' = log w)
  /\ (exists r w' new,
         IndexNowSubmitter.submit_urls api_key urls site_url env w = (inr r, w')
         /\ (status r = "success" \/ status r = "error")
         /\ sent w' = sent w ++ new /\ (length new <= 1)%nat
         /\ log w' = log w).
Proof.
  destruct (decide (api_key = None \/ api_key = Some "")) as [Hno|Hkey].
  { split; exists missing_key, w, [];
      [rewrite (bing_no_key _ _ _ _ _ _ Hno)
      |rewrite (indexnow_no_key _ _ _ _ _ Hno)];
      repeat split; auto; by rewrite app_nil_r. }
  destruct api_key as [key|]; [|by destruct Hkey; left].
  assert (Hne : key <> "") by (intros ->; apply Hkey; by right).
  split.
  - destruct (Random.sample (rand env) (draws w) urls
                            (Z.min (len urls) limit)) as [e|[url_list t_s]] eqn:Hs.
    + destruct (bing_run_no_sample env w urls site_url key limit e Hne Hs)
        as (r & Hr & Hst).
      exists r, w, []. rewrite Hr. repeat split; auto. by rewrite app_nil_r.
    + destruct (bing_run env w urls site_url key limit url_list t_s Hne Hs)
        as (r & Hr & Hreply).
      eexists r, _, [_]. split; [exact Hr|]. split; [|by repeat split].
      destruct (session_post env _) as [e|resp]; [by right; apply Hreply|].
      destruct (status_code resp =? 200).
      * destruct (resp_json resp); [by right; apply Hreply | subst r; by left].
      * subst r. by right.
  - destruct (indexnow_run env w urls site_url key Hne) as (r & Hr & Hreply).
    eexists r, _, [_]. split; [exact Hr|]. split; [|by repeat split].
    destruct (session_post env _) as [e|resp]; [by right; apply Hreply|].
    destruct ((status_code resp =? 200) || (status_code resp =? 202));
      subst r; [by left | by right].
Qed.

(** Closes a goal about the result a handler builds from [e]. *)
Ltac absorbed e :=
  destruct e; simpl; do 3 eexists; (split; [reflexivity|]);
  repeat split; simpl; try done;
  try (intros ? [= ->]; done);
  let H := fresh in intros H; exfalso; eapply H; reflexivity.

(** X2. A transport failure is absorbed, after the request was attempted:
    when [session.post] raises, either submitter returns an error result
    without a response field, whose message is the network prefix
    followed by the exception's text for a [requests.RequestException]
    and the general prefix followed by it for any other exception. *)
Theorem transport_failure_is_absorbed
        (env : Env) (w : World) (key : string)
        (urls : list string) (site_url : string) (limit : Z) (e : exn) :
  key <> "" ->
  0 <= limit ->
  (forall req, session_post env req = inl e) ->
  (exists r w' req,
      BingSubmitter.submit_urls (Some key) urls site_url limit env w = (inr r, w')
      /\ sent w' = sent w ++ [req]
      /\ status r = "error" /\ response r = None
      /\ (forall m, e = RequestException m -> message r = "网络请求错误: " +:+ m)
      /\ ((forall m, e <> RequestException m) ->
          message r = "提交过程中发生错误: " +:+ str_of_exn e))
  /\ (exists r w' req,
         IndexNowSubmitter.submit_urls (Some key) urls site_url env w = (inr r, w')
         /\ sent w' = sent w ++ [req]
         /\ status r = "error" /\ response r = None
         /\ (forall m, e = RequestException m -> message r = "网络请求错误: " +:+ m)
         /\ ((forall m, e <> RequestException m) ->
             message r = "提交过程中发生错误: " +:+ str_of_exn e)).
Proof.
  intros Hkey Hlim Hfail. pose proof (len_nonneg urls) as Hlen. split.
  - destruct (RandomFacts.sample_total
                (rand env) (draws w) urls (Z.min (len urls) limit))
      as (url_list & t_s & rest & Hs & _ & _ & _); [lia|].
    unfold BingSubmitter.submit_urls.
    rewrite (truthy_nonempty _ Hkey). simpl. unfold_M. rewrite Hs. simpl.
    rewrite Hfail. clear Hfail Hs. absorbed e.
  - unfold IndexNowSubmitter.submit_urls.
    rewrite (truthy_nonempty _ Hkey). simpl. unfold_M. rewrite Hfail.
    clear Hfail. absorbed e.
Qed.

Lemma transport_failure_is_absorbed_witness :
  let e := RequestException "HTTPSConnectionPool: Read timed out." in
  let env := Fixture.env true (inr Fixture.sitemap3) (inl e) in
  (exists r w' req,
      BingSubmitter.submit_urls (Some "k") Fixture.three_urls "https://a.example" 10
                                env world0 = (inr r, w')
      /\ sent w' = sent world0 ++ [req]
      /\ status r = "error" /\ response r = None
      /\ (forall m, e = RequestException m -> message r = "网络请求错误: " +:+ m)
      /\ ((forall m, e <> RequestException m) ->
          message r = "提交过程中发生错误: " +:+ str_of_exn e))
  /\ (exists r w' req,
         IndexNowSubmitter.submit_urls (Some "k") Fixture.three_urls
                                       "https://a.example" env world0 = (inr r, w')
         /\ sent w' = sent world0 ++ [req]
         /\ status r = "error" /\ response r = None
         /\ (forall m, e = RequestException m -> message r = "网络请求错误: " +:+ m)
         /\ ((forall m, e <> RequestException m) ->
             message r = "提交过程中发生错误: " +:+ str_of_exn e)).
Proof.
  intros e env.
  apply (transport_failure_is_absorbed env world0 "k" Fixture.three_urls
                                       "https://a.example" 10 e);
    [discriminate | by vm_compute | reflexivity].
Defined.

(** X3. A negative limit is not rejected up front: [random.sample] raises
    [ValueError] on the negative size, the general handler absorbs it,
    and the batch submitter returns that error result without posting
    anything or consuming anything from the generator. *)
Theorem negative_limit_sends_nothing
        (env : Env) (w : World) (key : string)
        (urls : list string) (site_url : string) (limit : Z) :
  key <> "" ->
  limit < 0 ->
  BingSubmitter.submit_urls (Some key) urls site_url limit env w
  = (inr (mkResult "error"
                   "提交过程中发生错误: Sample larger than population or is negative"
                   None),
     w).
Proof.
  intros Hkey Hlim. pose proof (len_nonneg urls) as Hlen.
  unfold BingSubmitter.submit_urls.
  rewrite (truthy_nonempty _ Hkey). simpl. unfold_M.
  by rewrite RandomFacts.sample_raises by (left; lia).
Qed.

Lemma negative_limit_sends_nothing_witness :
  BingSubmitter.submit_urls
    (Some "k") Fixture.three_urls "https://a.example" (-1)
    (Fixture.env true (inr Fixture.sitemap3) (inr Fixture.ok_response)) world0
  = (inr (mkResult "error"
                   "提交过程中发生错误: Sample larger than population or is negative"
                   None),
     world0).
Proof.
  apply (negative_limit_sends_nothing
           (Fixture.env true (inr Fixture.sitemap3) (inr Fixture.ok_response))
           world0 "k" Fixture.three_urls "https://a.example" (-1));
    [discriminate | by vm_compute].
Defined.

(** X4. The success message of the batch submitter counts the input, not
    what was sent: with more URLs than the limit and a 200 response that
    decodes, the request carries exactly [limit] URLs while the message
    reports [len(urls)] of them as submitted. *)
Theorem success_message_counts_input
        (env : Env) (w : World) (key : string)
        (urls : list string) (site_url : string) (limit : Z)
        (resp : Response) (body : json) :
  key <> "" ->
  0 <= limit < len urls ->
  (forall req, session_post env req = inr resp) ->
  status_code resp = 200 ->
  resp_json resp = inr body ->
  exists r w' req url_list,
    BingSubmitter.submit_urls (Some key) urls site_url limit env w = (inr r, w')
    /\ sent w' = sent w ++ [req]
    /\ req_json req
       = JObj [("siteUrl", JStr site_url); ("urlList", JArr (map JStr url_list))]
    /\ len url_list = limit
    /\ status r = "success"
    /\ message r = "成功提交 " +:+ PyStr.of_Z (len urls) +:+ " 个URL到必应".
Proof.
  intros Hkey Hlim Hpost H200 Hbody.
  destruct (RandomFacts.sample_total
                (rand env) (draws w) urls (Z.min (len urls) limit))
    as (url_list & t_s & rest & Hs & Hk & _ & _); [lia|].
  destruct (bing_run env w urls site_url key limit url_list t_s Hkey Hs)
    as (r & Hr & Hreply).
  rewrite Hpost, H200, Hbody in Hreply. simpl in Hreply. subst r.
  do 4 eexists. split; [exact Hr|]. repeat split. lia.
Qed.

(** Fifteen URLs under limit 10: ten are sent, fifteen are reported. *)
Lemma success_message_counts_input_witness :
  let urls := map (fun n => "https://a.example/" +:+ PyStr.of_Z n)
                  [1; 2; 3; 4; 5; 6; 7; 8; 9; 10; 11; 12; 13; 14; 15] in
  let env := Fixture.env true (inr Fixture.sitemap3) (inr Fixture.ok_response) in
  exists r w' req url_list,
    BingSubmitter.submit_urls (Some "k") urls "https://a.example" 10 env world0
    = (inr r, w')
    /\ sent w' = sent world0 ++ [req]
    /\ req_json req
       = JObj [("siteUrl", JStr "https://a.example");
               ("urlList", JArr (map JStr url_list))]
    /\ len url_list = 10
    /\ status r = "success"
    /\ message r = "成功提交 " +:+ PyStr.of_Z (len urls) +:+ " 个URL到必应".
Proof.
  intros urls env.
  apply (success_message_counts_input env world0 "k" urls "https://a.example" 10
                                      Fixture.ok_response (JObj []));
    [discriminate | by vm_compute | reflexivity | reflexivity | reflexivity].
Defined.

(** X5. The submitters do not short-circuit on an empty list: with a key
    (and a non-negative limit) each still posts its one request, with an
    empty [urlList]. *)
Theorem empty_list_is_still_posted
        (env : Env) (w : World) (key : string) (site_url : string) (limit : Z) :
  key <> "" ->
  0 <= limit ->
  (exists r w' req,
      BingSubmitter.submit_urls (Some key) [] site_url limit env w = (inr r, w')
      /\ sent w' = sent w ++ [req]
      /\ req_json req = JObj [("siteUrl", JStr site_url); ("urlList", JArr [])])
  /\ (exists r w' req,
         IndexNowSubmitter.submit_urls (Some key) [] site_url env w = (inr r, w')
         /\ sent w' = sent w ++ [req]
         /\ req_json req
            = JObj [("host", JStr site_url);
                    ("key", JStr key);
                    ("keyLocation", JStr (site_url +:+ "/" +:+ key +:+ ".txt"));
                    ("urlList", JArr [])]).
Proof.
  intros Hkey Hlim. split.
  - assert (Hs : Random.sample (rand env) (draws w)
                               ([] : list string) (Z.min (len ([] : list string)) limit)
                 = inr ([], draws w)).
    { replace (Z.min (len ([] : list string)) limit) with 0
        by (unfold len; simpl; lia).
      unfold Random.sample. simpl. by rewrite Nat.add_0_r. }
    destruct (bing_run env w [] site_url key limit [] (draws w) Hkey Hs)
      as (r & Hr & _).
    do 3 eexists. split; [exact Hr|]. by split.
  - destruct (indexnow_run env w [] site_url key Hkey) as (r & Hr & _).
    do 3 eexists. split; [exact Hr|]. by split.
Qed.

Lemma empty_list_is_still_posted_witness :
  let env := Fixture.env true (inr Fixture.sitemap3) (inr Fixture.ok_response) in
  (exists r w' req,
      BingSubmitter.submit_urls (Some "k") [] "https://a.example" 10 env world0
      = (inr r, w')
      /\ sent w' = sent world0 ++ [req]
      /\ req_json req
         = JObj [("siteUrl", JStr "https://a.example"); ("urlList", JArr [])])
  /\ (exists r w' req,
         IndexNowSubmitter.submit_urls (Some "k") [] "https://a.example" env world0
         = (inr r, w')
         /\ sent w' = sent world0 ++ [req]
         /\ req_json req
            = JObj [("host", JStr "https://a.example");
                    ("key", JStr "k");
                    ("keyLocation", JStr ("https://a.example" +:+ "/" +:+ "k" +:+ ".txt"));
                    ("urlList", JArr [])]).
Proof.
  intros env.
  apply (empty_list_is_still_posted env world0 "k" "https://a.example" 10);
    [discriminate | by vm_compute].
Defined.

(** ** The parser: what the loop returns *)

(** An item contributes the stripped text of its first [link] child, or
    nothing. *)
Lemma visit_nil_cases (item : Element) :
  (exists l t, ET.find "link" item = Some l /\ text l = Some t /\ t <> ""
               /\ SitemapParser.visit [] item = [PyStr.strip t])
  \/ (~ (exists l t, ET.find "link" item = Some l /\ text l = Some t /\ t <> "")
      /\ SitemapParser.visit [] item = []).
Proof.
  unfold SitemapParser.visit.
  destruct (ET.find "link" item) as [l|] eqn:Hl.
  2: { right. split; [|done]. intros (? & ? & ? & _). done. }
  destruct (text l) as [t|] eqn:Ht.
  2: { right. split; [|done]. intros (l' & t' & [= <-] & Ht' & _). congruence. }
  destruct t as [|c t]; simpl.
  - right. split; [|done]. intros (l' & t' & [= <-] & Ht' & Hne). congruence.
  - left. by exists l, (String c t).
Qed.

(** X6. The parser returns at most one string per [item] element, and
    exactly one per item precisely when every item has a first [link]
    child whose text is non-empty: an item without such a child is
    skipped silently. *)
Theorem one_url_per_item (root : Element) :
  (length (SitemapParser.collect root)
   <= length (ET.findall_descendants "item" root))%nat
  /\ (length (SitemapParser.collect root)
      = length (ET.findall_descendants "item" root)
      <-> Forall (fun item =>
                    exists l t, ET.find "link" item = Some l
                                /\ text l = Some t /\ t <> "")
                 (ET.findall_descendants "item" root)).
Proof.
  unfold SitemapParser.collect. rewrite fold_visit. simpl.
  induction (ET.findall_descendants "item" root) as [|item items [IHle IHiff]];
    simpl.
  - split; [lia|]. split; [constructor|done].
  - rewrite length_app.
    destruct (visit_nil_cases item) as [(l & t & Hl & Ht & Hne & ->) | [Hno ->]];
      simpl.
    + split; [lia|]. split.
      * intros [= H]. constructor; [by exists l, t | by apply IHiff].
      * intros [_ H%IHiff]%Forall_cons. by rewrite H.
    + split; [lia|]. split; [lia|]. by intros [? _]%Forall_cons.
Qed.

(** *** What [strip] leaves *)

Lemma find_none_existsb {A : Type} (f : A -> bool) (l : list A) :
  List.find f l = None <-> existsb f l = false.
Proof.
  induction l as [|a l IH]; simpl; [done|].
  destruct (f a); simpl; [done | exact IH].
Qed.

Lemma find_map_none {A B : Type} (f : B -> bool) (g : A -> B) (l : list A) :
  List.find f (map g l) = None <-> List.find (fun a => f (g a)) l = None.
Proof.
  induction l as [|a l IH]; simpl; [done|]. by destruct (f (g a)).
Qed.

Lemma is_prefix_take (p l : list ascii) (m : nat) :
  PyStr.is_prefix p (take m l) = true -> PyStr.is_prefix p l = true.
Proof.
  revert l m; induction p as [|a p IH]; intros [|b l] [|m]; simpl; try done.
  intros [-> H]%andb_true_iff. by rewrite (IH _ _ H).
Qed.

(** Stripping on the left removes a prefix. *)
Lemma lstrip_rounds_drop (ws : list (list ascii)) (rounds : nat) :
  forall l, exists k, PyStr.lstrip_rounds ws rounds l = drop k l.
Proof.
  induction rounds as [|rounds IH]; intros l; simpl; [by exists 0%nat|].
  destruct (List.find _ ws) as [w|]; [|by exists 0%nat].
  destruct (IH (drop (length w) l)) as [k ->].
  exists (length w + k)%nat. by rewrite drop_drop.
Qed.

(** Stripping on the left leaves alone what starts with none of [ws]. *)
Lemma lstrip_with_fixed (ws : list (list ascii)) (l : list ascii) :
  List.find (fun w => PyStr.is_prefix w l) ws = None ->
  PyStr.lstrip_with ws l = l.
Proof.
  intros H. unfold PyStr.lstrip_with.
  destruct (length l); simpl; [done | by rewrite H].
Qed.

Lemma strip_bytes (s : string) :
  exists l1 l2,
    l1 = PyStr.lstrip_with PyStr.whitespace (list_ascii_of_string s)
    /\ l2 = PyStr.lstrip_with (map (@rev ascii) PyStr.whitespace) (rev l1)
    /\ list_ascii_of_string (PyStr.strip s) = rev l2
    /\ List.find (fun w => PyStr.is_prefix w (rev l2)) PyStr.whitespace = None
    /\ List.find (fun w => PyStr.is_prefix (rev w) l2) PyStr.whitespace = None.
Proof.
  eexists _, _. split; [reflexivity|]. split; [reflexivity|].
  set (l1 := PyStr.lstrip_with PyStr.whitespace (list_ascii_of_string s)).
  set (l2 := PyStr.lstrip_with (map (@rev ascii) PyStr.whitespace) (rev l1)).
  split; [unfold PyStr.strip; by rewrite list_ascii_of_string_of_list_ascii|].
  split.
  - destruct (lstrip_rounds_drop (map (@rev ascii) PyStr.whitespace)
                                 (length (rev l1)) (rev l1)) as [k Hk].
    fold (PyStr.lstrip_with (map (@rev ascii) PyStr.whitespace) (rev l1)) in Hk.
    fold l2 in Hk. rewrite Hk, skipn_rev, rev_involutive.
    pose proof (lstrip_no_leading_whitespace (list_ascii_of_string s)) as Hl1.
    fold l1 in Hl1.
    destruct (List.find (fun w => PyStr.is_prefix w (take _ l1)) PyStr.whitespace)
      as [w|] eqn:Hf; [|done].
    apply find_some in Hf as [Hin Hp%is_prefix_take].
    by rewrite (find_none _ _ Hl1 w Hin) in Hp.
  - apply (find_map_none (fun w => PyStr.is_prefix w l2)).
    apply lstrip_with_done.
    apply Forall_forall. intros w [w0 [-> Hin]]%list_elem_of_fmap.
    pose proof whitespace_nonempty as Hne. rewrite Forall_forall in Hne.
    specialize (Hne w0 Hin). by destruct w0; [|simpl; destruct (rev w0)].
Qed.

(** X7. Every string the parser returns is stripped: it neither starts
    nor ends with a whitespace character, and stripping it again changes
    nothing. *)
Theorem collected_urls_are_stripped (root : Element) (u : string) :
  u ∈ SitemapParser.collect root ->
  starts_with_whitespace u = false
  /\ ends_with_whitespace u = false
  /\ PyStr.strip u = u.
Proof.
  unfold SitemapParser.collect. rewrite fold_visit. simpl.
  intros (item & Hitem & Hu)%list_elem_of_In%in_flat_map.
  destruct (visit_nil_cases item) as [(l & t & _ & _ & _ & Hv) | [_ Hv]];
    rewrite Hv in Hu; [|done].
  destruct Hu as [<-|[]].
  destruct (strip_bytes t) as (l1 & l2 & _ & _ & Hb & Hstart & Hend).
  assert (Hs : starts_with_whitespace (PyStr.strip t) = false).
  { unfold starts_with_whitespace. rewrite Hb. by apply find_none_existsb. }
  assert (He : ends_with_whitespace (PyStr.strip t) = false).
  { unfold ends_with_whitespace. rewrite Hb, rev_involutive.
    by apply find_none_existsb. }
  split; [done|]. split; [done|].
  unfold PyStr.strip at 1. rewrite Hb.
  rewrite (lstrip_with_fixed _ _ Hstart), rev_involutive.
  rewrite (lstrip_with_fixed _ l2) by (by apply find_map_none).
  by rewrite <- Hb, string_of_list_ascii_of_string.
Qed.

Lemma collected_urls_are_stripped_witness :
  let root := Fixture.rss [Fixture.item (Some "  https://a.example/1 ")] in
  starts_with_whitespace "https://a.example/1" = false
  /\ ends_with_whitespace "https://a.example/1" = false
  /\ PyStr.strip "https://a.example/1" = "https://a.example/1".
Proof.
  intros root.
  apply (collected_urls_are_stripped root "https://a.example/1").
  vm_compute. by left.
Defined.

(** ** The parser: its handlers *)

(** X8. Provided the module-level [logger] is bound, the parser never
    raises and logs exactly one record per call: on success the links
    are returned and their number is logged at [INFO]; a [ParseError] is
    logged with its text, a [FileNotFoundError] with the path that was
    asked for (not with the exception's text), any other exception with
    its text, each at [ERROR] and each turned into the empty list. *)
Theorem parser_absorbs_failures (env : Env) (w : World) (sitemap_file : string) :
  logger_bound env = true ->
  let logged lvl m := mkWorld (log w ++ [mkLog lvl m None]) (sent w) (draws w) in
  let run := SitemapParser.parse_rss_sitemap sitemap_file env w in
  (forall root,
      et_parse env sitemap_file = inr root ->
      run = (inr (SitemapParser.collect root),
             logged INFO ("成功解析站点地图，找到 "
                          +:+ PyStr.of_Z (len (SitemapParser.collect root))
                          +:+ " 个URL")))
  /\ (forall m,
         et_parse env sitemap_file = inl (ParseError m) ->
         run = (inr [], logged ERROR ("XML解析错误: " +:+ m)))
  /\ (forall m,
         et_parse env sitemap_file = inl (FileNotFoundError m) ->
         run = (inr [], logged ERROR ("文件未找到: " +:+ sitemap_file)))
  /\ (forall e,
         et_parse env sitemap_file = inl e ->
         (forall m, e <> ParseError m) -> (forall m, e <> FileNotFoundError m) ->
         run = (inr [], logged ERROR ("解析站点地图时发生错误: " +:+ str_of_exn e))).
Proof.
  intros Hb logged run. subst run logged.
  unfold SitemapParser.parse_rss_sitemap. unfold_M.
  repeat split.
  - intros root ->. simpl. by rewrite !Hb.
  - intros m ->. simpl. by rewrite Hb.
  - intros m ->. simpl. by rewrite Hb.
  - intros e -> Hp Hf. simpl.
    destruct e; rewrite ?Hb; simpl; try done;
      [by destruct (Hp msg) | by destruct (Hf msg)].
Qed.

Lemma parser_absorbs_failures_witness :
  let env := Fixture.env true (inr Fixture.sitemap3) (inr Fixture.ok_response) in
  let logged lvl m := mkWorld (log world0 ++ [mkLog lvl m None])
                              (sent world0) (draws world0) in
  let run := SitemapParser.parse_rss_sitemap "missing.xml" env world0 in
  (forall root,
      et_parse env "missing.xml" = inr root ->
      run = (inr (SitemapParser.collect root),
             logged INFO ("成功解析站点地图，找到 "
                          +:+ PyStr.of_Z (len (SitemapParser.collect root))
                          +:+ " 个URL")))
  /\ (forall m,
         et_parse env "missing.xml" = inl (ParseError m) ->
         run = (inr [], logged ERROR ("XML解析错误: " +:+ m)))
  /\ (forall m,
         et_parse env "missing.xml" = inl (FileNotFoundError m) ->
         run = (inr [], logged ERROR ("文件未找到: " +:+ "missing.xml")))
  /\ (forall e,
         et_parse env "missing.xml" = inl e ->
         (forall m, e <> ParseError m) -> (forall m, e <> FileNotFoundError m) ->
         run = (inr [], logged ERROR ("解析站点地图时发生错误: " +:+ str_of_exn e))).
Proof.
  intros env.
  apply (parser_absorbs_failures env world0 "missing.xml"). reflexivity.
Defined.

(** Setting up the logger touches neither the log nor the network. *)
Lemma Logger_init_world (log_file : option string) (env : Env) (w w1 : World)
      (out : exn + unit) :
  Logger_init log_file env w = (out, w1) -> w1 = w.
Proof.
  unfold Logger_init. destruct log_file as [path|]; [|by intros [= _ <-]].
  destruct (PyStr.truthy path); [|by intros [= _ <-]].
  destruct (open_log_file env path); by intros [= _ <-].
Qed.

(** X9. As long as the module-level [logger] is unbound (the state the
    program itself leaves it in), nothing gets past the parser: for every
    path and whatever the file holds, [parse_rss_sitemap] raises
    [NameError] and logs nothing, and [main] ends in an exception (that
    [NameError], once its own logger is set up) without logging anything
    or posting any request. *)
Theorem nothing_runs_without_global_logger
        (env : Env) (w : World) (args : Args) (sitemap_file : string) :
  logger_bound env = false ->
  SitemapParser.parse_rss_sitemap sitemap_file env w
  = (inl (NameError "name 'logger' is not defined"), w)
  /\ exists e,
      main args env w = (inl e, w)
      /\ (Logger_init (arg_log args) env w = (inr tt, w) ->
          e = NameError "name 'logger' is not defined").
Proof.
  intros Hb. split; [by apply parse_unbound_logger|].
  unfold main.
  destruct (Logger_init (arg_log args) env w) as [[e|[]] w1] eqn:Hlog;
    pose proof (Logger_init_world _ _ _ _ _ Hlog) as ->.
  - exists e. by rewrite (bind_raised _ _ _ _ _ _ Hlog).
  - eexists. rewrite (bind_returned _ _ _ _ _ _ Hlog).
    by rewrite (bind_raised _ _ _ _ _ _ (parse_unbound_logger env w _ Hb)).
Qed.

Lemma nothing_runs_without_global_logger_witness :
  let env := Fixture.env false (inr Fixture.sitemap3) (inr Fixture.ok_response) in
  let args := mkArgs "sitemap.xml" None in
  SitemapParser.parse_rss_sitemap "sitemap.xml" env world0
  = (inl (NameError "name 'logger' is not defined"), world0)
  /\ exists e,
      main args env world0 = (inl e, world0)
      /\ (Logger_init (arg_log args) env world0 = (inr tt, world0) ->
          e = NameError "name 'logger' is not defined").
Proof.
  intros env args.
  apply (nothing_runs_without_global_logger env world0 args "sitemap.xml").
  reflexivity.
Defined.

(** ** The site origin, line 281 *)

Lemma split_length (c : ascii) (s : string) :
  length (PyStr.split c s) = S (count_char c s).
Proof.
  induction s as [|a s IH]; simpl; [done|].
  destruct (Ascii.eqb a c); simpl; [by rewrite IH|].
  destruct (PyStr.split c s) as [|x xs]; simpl in *; lia.
Qed.

Lemma split_no_sep (c : ascii) (s : string) :
  count_char c s = 0%nat -> PyStr.split c s = [s].
Proof.
  induction s as [|a s IH]; simpl; [done|].
  destruct (Ascii.eqb a c); simpl; [done|]. intros H. by rewrite (IH H).
Qed.

Lemma split_app_sep (c : ascii) (a b : string) :
  count_char c a = 0%nat ->
  PyStr.split c (a +:+ String c b) = a :: PyStr.split c b.
Proof.
  induction a as [|x a IH]; simpl.
  - intros _. by rewrite Ascii.eqb_refl.
  - destruct (Ascii.eqb x c); simpl; [done|]. intros H. by rewrite (IH H).
Qed.

(** X10. For a URL of the form [scheme//host/path], with no slash inside
    [scheme] and [host], the derived origin is [scheme//host] whatever
    the path and whatever URLs follow in the list; the same holds without
    any path, so the origin of an origin is that origin. *)
Theorem origin_of_scheme_host_path
        (scheme host path : string) (rest : list string) :
  count_char "/" scheme = 0%nat ->
  count_char "/" host = 0%nat ->
  site_url_of ((scheme +:+ "//" +:+ host +:+ "/" +:+ path) :: rest)
  = inr (scheme +:+ "//" +:+ host)
  /\ site_url_of ((scheme +:+ "//" +:+ host) :: rest)
     = inr (scheme +:+ "//" +:+ host).
Proof.
  intros Hs Hh. split.
  - apply (site_url_of_split _ _ scheme "" host (PyStr.split "/" path)).
    change (scheme +:+ "//" +:+ host +:+ "/" +:+ path)
      with (scheme +:+ String "/" (String "/" (host +:+ String "/" path))).
    rewrite (split_app_sep _ _ _ Hs). simpl.
    by rewrite (split_app_sep _ _ _ Hh).
  - apply (site_url_of_split _ _ scheme "" host []).
    change (scheme +:+ "//" +:+ host)
      with (scheme +:+ String "/" (String "/" host)).
    rewrite (split_app_sep _ _ _ Hs). simpl.
    by rewrite (split_no_sep _ _ Hh).
Qed.

Lemma origin_of_scheme_host_path_witness :
  site_url_of (("https:" +:+ "//" +:+ "example.com:8443" +:+ "/" +:+ "a/b?c=d")
                 :: ["http://other.example/x"])
  = inr ("https:" +:+ "//" +:+ "example.com:8443")
  /\ site_url_of (("https:" +:+ "//" +:+ "example.com:8443")
                    :: ["http://other.example/x"])
     = inr ("https:" +:+ "//" +:+ "example.com:8443").
Proof.
  apply (origin_of_scheme_host_path "https:" "example.com:8443" "a/b?c=d"
                                    ["http://other.example/x"]);
    reflexivity.
Defined.

(** X11. The derivation fails exactly on a first URL with fewer than two
    slashes: it then raises [IndexError], and with two slashes or more it
    returns a string. *)
Theorem origin_fails_iff_fewer_than_two_slashes
        (first : string) (rest : list string) :
  (site_url_of (first :: rest) = inl (IndexError "list index out of range")
   <-> (count_char "/" first < 2)%nat)
  /\ ((exists origin, site_url_of (first :: rest) = inr origin)
      <-> (2 <= count_char "/" first)%nat).
Proof.
  pose proof (split_length "/" first) as Hlen.
  destruct (le_lt_dec 2 (count_char "/" first)) as [Hge|Hlt].
  - destruct (PyStr.split "/" first) as [|a [|b [|c l]]] eqn:Hsp;
      simpl in Hlen; try lia.
    rewrite (site_url_of_split _ _ _ _ _ _ Hsp).
    split; split; try done; try lia. intros _. by eexists.
  - rewrite (site_url_of_short first rest) by lia.
    split; split; try done; try lia. by intros [? ?].
Qed.

(** ** Orchestration: the guards and the full trace *)

(** [report] logs a success at [INFO] and an error at [ERROR]. *)
Lemma report_logs (r : Result) (env : Env) (w : World) :
  status r = "success" \/ status r = "error" ->
  exists record,
    report r env w = (inr tt, mkWorld (log w ++ [record]) (sent w) (draws w))
    /\ ((status r = "success" /\ record = mkLog INFO "提交成功: " (Some r))
        \/ (status r = "error" /\ record = mkLog ERROR "提交失败: " (Some r))).
Proof.
  unfold report, emit. intros [H|H]; rewrite H; simpl; eexists; (split; [done|]);
    [left | right]; done.
Qed.

Lemma bing_run_status (env : Env) (w : World) (key : string)
      (urls : list string) (site_url : string) (limit : Z) :
  key <> "" -> 0 <= limit ->
  exists r url_list t,
    BingSubmitter.submit_urls (Some key) urls site_url limit env w
    = (inr r,
       mkWorld (log w)
               (sent w ++ [mkRequest (BingSubmitter.base_url +:+ "?apikey=" +:+ key)
                                     BingSubmitter.headers
                                     (BingSubmitter.data site_url url_list) 20])
               t)
    /\ (status r = "success" \/ status r = "error").
Proof.
  intros Hkey Hlim. pose proof (len_nonneg urls) as Hlen.
  destruct (RandomFacts.sample_total
                (rand env) (draws w) urls (Z.min (len urls) limit))
    as (url_list & t_s & rest & Hs & _ & _ & _); [lia|].
  destruct (bing_run env w urls site_url key limit url_list t_s Hkey Hs)
    as (r & Hr & Hreply).
  exists r, url_list, t_s. split; [exact Hr|].
  destruct (session_post env _) as [e|resp]; [by right; apply Hreply|].
  destruct (status_code resp =? 200).
  - destruct (resp_json resp); [by right; apply Hreply | subst r; by left].
  - subst r. by right.
Qed.

Lemma indexnow_run_status (env : Env) (w : World) (key : string)
      (urls : list string) (site_url : string) :
  key <> "" ->
  exists r,
    IndexNowSubmitter.submit_urls (Some key) urls site_url env w
    = (inr r,
       mkWorld (log w)
               (sent w ++ [mkRequest IndexNowSubmitter.base_url
                                     IndexNowSubmitter.headers
                                     (IndexNowSubmitter.data key site_url urls) 20])
               (draws w))
    /\ (status r = "success" \/ status r = "error").
Proof.
  intros Hkey.
  destruct (indexnow_run env w urls site_url key Hkey) as (r & Hr & Hreply).
  exists r. split; [exact Hr|].
  destruct (session_post env _) as [e|resp]; [by right; apply Hreply|].
  destruct ((status_code resp =? 200) || (status_code resp =? 202));
    subst r; [by left | by right].
Qed.

(** [main] from the point where the parser has returned a non-empty
    list, both keys are set and the origin is derived. *)
Lemma main_submits
      (env : Env) (w w1 : World) (args : Args)
      (first : string) (rest : list string)
      (bing_key indexnow_key site : string) :
  Logger_init (arg_log args) env w = (inr tt, w) ->
  SitemapParser.parse_rss_sitemap (arg_sitemap args) env w
  = (inr (first :: rest), w1) ->
  getenv env "BING_API_KEY" = Some bing_key -> bing_key <> "" ->
  getenv env "INDEXNOW_API_KEY" = Some indexnow_key -> indexnow_key <> "" ->
  site_url_of (first :: rest) = inr site ->
  exists r1 r2 url_list t rec1 rec2,
    main args env w
    = (inr tt,
       mkWorld
         (log w1
          ++ [mkLog INFO ("网站URL: " +:+ site) None;
              mkLog INFO "自动提交到必应搜索引擎..." None;
              rec1;
              mkLog INFO "自动提交到IndexNow..." None;
              rec2])
         (sent w1
          ++ [mkRequest (BingSubmitter.base_url +:+ "?apikey=" +:+ bing_key)
                        BingSubmitter.headers
                        (BingSubmitter.data site url_list) 20;
              mkRequest IndexNowSubmitter.base_url IndexNowSubmitter.headers
                        (IndexNowSubmitter.data indexnow_key site (first :: rest))
                        20])
         t)
    /\ ((status r1 = "success" /\ rec1 = mkLog INFO "提交成功: " (Some r1))
        \/ (status r1 = "error" /\ rec1 = mkLog ERROR "提交失败: " (Some r1)))
    /\ ((status r2 = "success" /\ rec2 = mkLog INFO "提交成功: " (Some r2))
        \/ (status r2 = "error" /\ rec2 = mkLog ERROR "提交失败: " (Some r2))).
Proof.
  intros Hlog Hparse Hbk Hbkne Hik Hikne Hsite.
  pose (wa := mkWorld
                ((log w1 ++ [mkLog INFO ("网站URL: " +:+ site) None])
                 ++ [mkLog INFO "自动提交到必应搜索引擎..." None])
                (sent w1) (draws w1)).
  destruct (bing_run_status env wa bing_key (first :: rest) site 10 Hbkne)
    as (r1 & url_list & t & Hr1 & Hst1); [lia|].
  match type of Hr1 with _ = (_, ?w2) =>
    destruct (report_logs r1 env w2 Hst1) as (rec1 & Hrep1 & Hrec1) end.
  match type of Hrep1 with _ = (_, mkWorld ?l ?s ?d) =>
    pose (wb := mkWorld (l ++ [mkLog INFO "自动提交到IndexNow..." None]) s d) end.
  destruct (indexnow_run_status env wb indexnow_key (first :: rest) site Hikne)
    as (r2 & Hr2 & Hst2).
  match type of Hr2 with _ = (_, ?w5) =>
    destruct (report_logs r2 env w5 Hst2) as (rec2 & Hrep2 & Hrec2) end.
  exists r1, r2, url_list, t, rec1, rec2. split; [|by split].
  unfold main.
  rewrite (bind_returned _ _ _ _ _ _ Hlog).
  rewrite (bind_returned _ _ _ _ _ _ Hparse).
  erewrite bind_returned by reflexivity.
  erewrite bind_returned by reflexivity.
  rewrite Hbk, Hik.
  assert (Hkeys : PyStr.truthy_opt (Some bing_key)
                  && PyStr.truthy_opt (Some indexnow_key) = true)
    by (simpl; by rewrite (truthy_nonempty _ Hbkne), (truthy_nonempty _ Hikne)).
  rewrite Hkeys. cbn [negb]. rewrite Hsite.
  erewrite bind_returned by reflexivity.
  erewrite bind_returned by reflexivity.
  erewrite bind_returned by reflexivity.
  erewrite bind_returned by exact Hr1.
  erewrite bind_returned by exact Hrep1.
  erewrite bind_returned by reflexivity.
  erewrite bind_returned by exact Hr2.
  rewrite Hrep2. f_equal. subst wa wb. simpl. f_equal.
  - by rewrite <- !app_assoc.
  - by rewrite <- app_assoc.
Qed.

Lemma main_stops_empty (env : Env) (w w1 : World) (args : Args) :
  Logger_init (arg_log args) env w = (inr tt, w) ->
  SitemapParser.parse_rss_sitemap (arg_sitemap args) env w = (inr [], w1) ->
  main args env w
  = (inr tt, mkWorld (log w1 ++ [mkLog WARNING "未找到任何URL" None])
                     (sent w1) (draws w1)).
Proof.
  intros Hlog Hparse. unfold main.
  rewrite (bind_returned _ _ _ _ _ _ Hlog).
  by rewrite (bind_returned _ _ _ _ _ _ Hparse).
Qed.

Lemma main_stops_keys (env : Env) (w w1 : World) (args : Args)
      (first : string) (rest : list string) :
  Logger_init (arg_log args) env w = (inr tt, w) ->
  SitemapParser.parse_rss_sitemap (arg_sitemap args) env w
  = (inr (first :: rest), w1) ->
  PyStr.truthy_opt (getenv env "BING_API_KEY")
  && PyStr.truthy_opt (getenv env "INDEXNOW_API_KEY") = false ->
  main args env w
  = (inr tt,
     mkWorld (log w1
              ++ [mkLog ERROR
                        "未获取到API密钥, 请设置BING_API_KEY和INDEXNOW_API_KEY环境变量"
                        None])
             (sent w1) (draws w1)).
Proof.
  intros Hlog Hparse Hkeys. unfold main.
  rewrite (bind_returned _ _ _ _ _ _ Hlog).
  rewrite (bind_returned _ _ _ _ _ _ Hparse).
  erewrite bind_returned by reflexivity.
  erewrite bind_returned by reflexivity.
  by rewrite Hkeys.
Qed.

Lemma main_origin_fails (env : Env) (w w1 : World) (args : Args)
      (first : string) (rest : list string) (e : exn) :
  Logger_init (arg_log args) env w = (inr tt, w) ->
  SitemapParser.parse_rss_sitemap (arg_sitemap args) env w
  = (inr (first :: rest), w1) ->
  PyStr.truthy_opt (getenv env "BING_API_KEY")
  && PyStr.truthy_opt (getenv env "INDEXNOW_API_KEY") = true ->
  site_url_of (first :: rest) = inl e ->
  main args env w = (inl e, w1).
Proof.
  intros Hlog Hparse Hkeys Hsite. unfold main.
  rewrite (bind_returned _ _ _ _ _ _ Hlog).
  rewrite (bind_returned _ _ _ _ _ _ Hparse).
  erewrite bind_returned by reflexivity.
  erewrite bind_returned by reflexivity.
  rewrite Hkeys. cbn [negb]. rewrite Hsite.
  by erewrite bind_raised by reflexivity.
Qed.

Lemma truthy_opt_true (o : option string) :
  PyStr.truthy_opt o = true -> exists key, o = Some key /\ key <> "".
Proof. destruct o as [[|c s]|]; simpl; try done. intros _. by eexists. Qed.

(** X12. With the module-level [logger] bound, a sitemap that cannot be
    read or parsed, or that yields no link, ends the run quietly: [main]
    returns normally, its last log record is the warning that no URL was
    found, and no request is posted. *)
Theorem main_without_urls
        (env : Env) (w : World) (args : Args) :
  Logger_init (arg_log args) env w = (inr tt, w) ->
  logger_bound env = true ->
  (match et_parse env (arg_sitemap args) with
   | inl _ => True
   | inr root => SitemapParser.collect root = []
   end) ->
  exists record,
    main args env w
    = (inr tt,
       mkWorld (log w ++ [record; mkLog WARNING "未找到任何URL" None])
               (sent w) (draws w)).
Proof.
  intros Hlog Hb Hfile.
  destruct (parse_bound_logger env w (arg_sitemap args) Hb)
    as (urls & record & Hparse & Hres).
  assert (urls = []) as ->.
  { destruct (et_parse env (arg_sitemap args)); destruct Hres as [-> _]; done. }
  exists record. rewrite (main_stops_empty _ _ _ _ Hlog Hparse). simpl.
  by rewrite <- app_assoc.
Qed.

Lemma main_without_urls_witness :
  let env := Fixture.env true (inr Fixture.sitemap3) (inr Fixture.ok_response) in
  exists record,
    main (mkArgs "missing.xml" None) env world0
    = (inr tt,
       mkWorld (log world0 ++ [record; mkLog WARNING "未找到任何URL" None])
               (sent world0) (draws world0)).
Proof.
  intros env.
  apply (main_without_urls env world0 (mkArgs "missing.xml" None));
    [reflexivity | reflexivity | exact I].
Defined.

(** X13. Both keys are needed before either submission: when the parser
    returned URLs and [BING_API_KEY] or [INDEXNOW_API_KEY] is unset or
    empty, even if the other one is set, [main] logs the missing-key
    error, posts no request at all and returns normally. *)
Theorem main_needs_both_keys
        (env : Env) (w : World) (args : Args) (root : Element) :
  Logger_init (arg_log args) env w = (inr tt, w) ->
  logger_bound env = true ->
  et_parse env (arg_sitemap args) = inr root ->
  SitemapParser.collect root <> [] ->
  PyStr.truthy_opt (getenv env "BING_API_KEY") = false
  \/ PyStr.truthy_opt (getenv env "INDEXNOW_API_KEY") = false ->
  exists record,
    main args env w
    = (inr tt,
       mkWorld (log w
                ++ [record;
                    mkLog ERROR
                          "未获取到API密钥, 请设置BING_API_KEY和INDEXNOW_API_KEY环境变量"
                          None])
               (sent w) (draws w)).
Proof.
  intros Hlog Hb Hroot Hne Hkeys.
  destruct (parse_bound_logger env w (arg_sitemap args) Hb)
    as (urls & record & Hparse & Hres).
  rewrite Hroot in Hres. destruct Hres as [-> _].
  destruct (SitemapParser.collect root) as [|first rest]; [done|].
  exists record. rewrite (main_stops_keys _ _ _ _ _ _ Hlog Hparse).
  - simpl. by rewrite <- app_assoc.
  - apply andb_false_iff. exact Hkeys.
Qed.

(** Only the Bing key is set. *)
Lemma main_needs_both_keys_witness :
  let env := mkEnv (fun _ => inr Fixture.sitemap3) (fun _ => inr Fixture.ok_response)
                   (scripted [])
                   (fun name => if String.eqb name "BING_API_KEY"
                                then Some "k" else None)
                   true (fun _ => None) in
  exists record,
    main (mkArgs "sitemap.xml" None) env world0
    = (inr tt,
       mkWorld (log world0
                ++ [record;
                    mkLog ERROR
                          "未获取到API密钥, 请设置BING_API_KEY和INDEXNOW_API_KEY环境变量"
                          None])
               (sent world0) (draws world0)).
Proof.
  intros env.
  apply (main_needs_both_keys env world0 (mkArgs "sitemap.xml" None)
                              Fixture.sitemap3);
    [reflexivity | reflexivity | reflexivity | discriminate | by right].
Defined.

(** X14. Once the submissions are reached, [main] returns normally
    whatever the network does, and its log is fixed up to the two
    results: after the parser's record come the site URL, the batch
    banner, one record for the batch result, the push banner and one
    record for the push result; a result is logged at [INFO] when its
    status is ['success'] and at [ERROR] when it is ['error'].  A failed
    batch submission therefore does not keep the push submission from
    running. *)
Theorem main_logs_each_result_once
        (env : Env) (w : World) (args : Args) (root : Element)
        (first : string) (rest : list string)
        (bing_key indexnow_key site : string) :
  Logger_init (arg_log args) env w = (inr tt, w) ->
  logger_bound env = true ->
  et_parse env (arg_sitemap args) = inr root ->
  SitemapParser.collect root = first :: rest ->
  getenv env "BING_API_KEY" = Some bing_key -> bing_key <> "" ->
  getenv env "INDEXNOW_API_KEY" = Some indexnow_key -> indexnow_key <> "" ->
  site_url_of (first :: rest) = inr site ->
  exists r1 r2 rec0 rec1 rec2 w',
    main args env w = (inr tt, w')
    /\ log w'
       = log w
         ++ [rec0;
             mkLog INFO ("网站URL: " +:+ site) None;
             mkLog INFO "自动提交到必应搜索引擎..." None;
             rec1;
             mkLog INFO "自动提交到IndexNow..." None;
             rec2]
    /\ length (sent w') = (length (sent w) + 2)%nat
    /\ ((status r1 = "success" /\ rec1 = mkLog INFO "提交成功: " (Some r1))
        \/ (status r1 = "error" /\ rec1 = mkLog ERROR "提交失败: " (Some r1)))
    /\ ((status r2 = "success" /\ rec2 = mkLog INFO "提交成功: " (Some r2))
        \/ (status r2 = "error" /\ rec2 = mkLog ERROR "提交失败: " (Some r2))).
Proof.
  intros Hlog Hb Hroot Hurls Hbk Hbkne Hik Hikne Hsite.
  destruct (parse_bound_logger env w (arg_sitemap args) Hb)
    as (urls & rec0 & Hparse & Hres).
  rewrite Hroot, Hurls in Hres. destruct Hres as [-> _].
  destruct (main_submits env w _ args first rest bing_key indexnow_key site
                         Hlog Hparse Hbk Hbkne Hik Hikne Hsite)
    as (r1 & r2 & url_list & t & rec1 & rec2 & Hmain & H1 & H2).
  exists r1, r2, rec0, rec1, rec2. eexists. split; [exact Hmain|].
  simpl. split; [by rewrite <- app_assoc|]. split; [|by split].
  rewrite length_app. simpl. lia.
Qed.

(** The network is down: both results are errors, both are logged. *)
Lemma main_logs_each_result_once_witness :
  let env := Fixture.env true (inr Fixture.sitemap3)
                         (inl (RequestException "Connection refused")) in
  exists r1 r2 rec0 rec1 rec2 w',
    main (mkArgs "sitemap.xml" None) env world0 = (inr tt, w')
    /\ log w'
       = log world0
         ++ [rec0;
             mkLog INFO ("网站URL: " +:+ "https://a.example") None;
             mkLog INFO "自动提交到必应搜索引擎..." None;
             rec1;
             mkLog INFO "自动提交到IndexNow..." None;
             rec2]
    /\ length (sent w') = (length (sent world0) + 2)%nat
    /\ ((status r1 = "success" /\ rec1 = mkLog INFO "提交成功: " (Some r1))
        \/ (status r1 = "error" /\ rec1 = mkLog ERROR "提交失败: " (Some r1)))
    /\ ((status r2 = "success" /\ rec2 = mkLog INFO "提交成功: " (Some r2))
        \/ (status r2 = "error" /\ rec2 = mkLog ERROR "提交失败: " (Some r2))).
Proof.
  intros env.
  apply (main_logs_each_result_once
           env world0 (mkArgs "sitemap.xml" None) Fixture.sitemap3
           "https://a.example/1" ["https://a.example/2"; "https://a.example/3"]
           "k" "k" "https://a.example");
    solve [reflexivity | discriminate].
Defined.

(** X15. A run of [main] posts either nothing or exactly two requests,
    the batch request first and the push request second; in the second
    case it returned normally.  So an exception that escapes [main]
    escapes before anything was sent, and the push request is never
    sent without the batch request. *)
Theorem main_sends_nothing_or_both (env : Env) (w : World) (args : Args) :
  exists out w',
    main args env w = (out, w')
    /\ (sent w' = sent w
        \/ (out = inr tt
            /\ exists batch push key,
                sent w' = sent w ++ [batch; push]
                /\ req_url batch = BingSubmitter.base_url +:+ "?apikey=" +:+ key
                /\ req_url push = IndexNowSubmitter.base_url)).
Proof.
  destruct (Logger_init (arg_log args) env w) as [[e|[]] w0] eqn:Hlog;
    pose proof (Logger_init_world _ _ _ _ _ Hlog) as ->.
  { exists (inl e), w. split; [|by left].
    unfold main. by rewrite (bind_raised _ _ _ _ _ _ Hlog). }
  destruct (logger_bound env) eqn:Hb.
  2: { eexists _, w. split; [by apply main_unbound_logger|]. by left. }
  destruct (parse_bound_logger env w (arg_sitemap args) Hb)
    as (urls & rec0 & Hparse & _).
  destruct urls as [|first rest].
  { eexists _, _. split; [by apply (main_stops_empty _ _ _ _ Hlog Hparse)|].
    by left. }
  destruct (PyStr.truthy_opt (getenv env "BING_API_KEY")
            && PyStr.truthy_opt (getenv env "INDEXNOW_API_KEY")) eqn:Hkeys.
  2: { eexists _, _.
       split; [by apply (main_stops_keys _ _ _ _ _ _ Hlog Hparse Hkeys)|].
       by left. }
  destruct (site_url_of (first :: rest)) as [e|site] eqn:Hsite.
  { eexists _, _.
    split; [by apply (main_origin_fails _ _ _ _ _ _ _ Hlog Hparse Hkeys Hsite)|].
    by left. }
  apply andb_true_iff in Hkeys as [Hbing Hindex].
  apply truthy_opt_true in Hbing as (bk & Hbk & Hbkne).
  apply truthy_opt_true in Hindex as (ik & Hik & Hikne).
  destruct (main_submits env w _ args first rest bk ik site
                         Hlog Hparse Hbk Hbkne Hik Hikne Hsite)
    as (r1 & r2 & url_list & t & rec1 & rec2 & Hmain & _).
  eexists _, _. split; [exact Hmain|]. right. split; [done|].
  by eexists _, _, bk.
Qed.

(** ** The logger *)

(** The keys of [LEVEL_COLORS] are the five standard level names. *)
Lemma level_colors_keys (name color : string) :
  Logging.dict_get name Logging.LEVEL_COLORS = Some color ->
  (name = "DEBUG" /\ color = Logging.Fore_BLUE)
  \/ (name = "INFO" /\ color = Logging.Fore_GREEN)
  \/ (name = "WARNING" /\ color = Logging.Fore_YELLOW)
  \/ (name = "ERROR" /\ color = Logging.Fore_RED)
  \/ (name = "CRITICAL" /\ color = Logging.Fore_MAGENTA).
Proof.
  unfold Logging.LEVEL_COLORS. cbn [Logging.dict_get].
  destruct (String.eqb_spec "DEBUG" name) as [<-|_]; [intros [= <-]; intuition|].
  destruct (String.eqb_spec "INFO" name) as [<-|_]; [intros [= <-]; intuition|].
  destruct (String.eqb_spec "WARNING" name) as [<-|_]; [intros [= <-]; intuition|].
  destruct (String.eqb_spec "ERROR" name) as [<-|_]; [intros [= <-]; intuition|].
  destruct (String.eqb_spec "CRITICAL" name) as [<-|_]; [intros [= <-]; intuition|].
  intros H. discriminate H.
Qed.

(** A coloured level name is no key of [LEVEL_COLORS]. *)
Lemma coloring_happens_once_lemma (r : Logging.Record_) :
  Logging.color_format (snd (Logging.color_format r)) = Logging.color_format r.
Proof.
  unfold Logging.color_format at 2 3.
  destruct (Logging.dict_get (Logging.levelname r) Logging.LEVEL_COLORS)
    as [color|] eqn:Hc; simpl.
  - destruct r as [no name time message]. simpl in *.
    apply level_colors_keys in Hc
      as [[-> ->]|[[-> ->]|[[-> ->]|[[-> ->]|[-> ->]]]]]; reflexivity.
  - unfold Logging.color_format. by rewrite Hc.
Qed.

(** X16. [ColorFormatter.format] colours a level name once: it rewrites
    the record's [levelname] in place, and on a record it has already
    formatted it returns the same line and leaves the record as it is,
    because a coloured name is no key of [LEVEL_COLORS]; an unknown level
    name is never coloured. *)
Theorem coloring_happens_once (r : Logging.Record_) :
  Logging.color_format (snd (Logging.color_format r)) = Logging.color_format r
  /\ (Logging.dict_get (Logging.levelname r) Logging.LEVEL_COLORS = None ->
      Logging.color_format r = Logging.plain_format r).
Proof.
  split; [apply coloring_happens_once_lemma|].
  intros Hc. unfold Logging.color_format. by rewrite Hc.
Qed.

(** X17. With a log file that opens, every record whose level name is a
    key of [LEVEL_COLORS] is written twice: first to the file with the
    plain level name, then, with the coloured one, to the stream of the
    console handler, which is the wrapper [colorama.init] has just put
    around the standard error (what reaches the terminal is up to that
    wrapper).  The file line is plain only because the file handler is
    added before the console handler: the console formatter overwrites
    the name in the record both handlers share, and in the opposite
    order the file would receive the coloured line as well. *)
Theorem log_file_gets_plain_lines
        (open_log_file : string -> option exn)
        (level : Z) (path : string) (r : Logging.Record_) (color : string) :
  path <> "" ->
  open_log_file path = None ->
  0 < level <= Logging.levelno r ->
  Logging.dict_get (Logging.levelname r) Logging.LEVEL_COLORS = Some color ->
  let plain :=
    "[" +:+ Logging.asctime r +:+ "-" +:+ Logging.levelname r
        +:+ "]: " +:+ Logging.msg r in
  let coloured :=
    "[" +:+ Logging.asctime r +:+ "-"
        +:+ (color +:+ Logging.levelname r +:+ Logging.Style_RESET_ALL)
        +:+ "]: " +:+ Logging.msg r in
  let console := Logging.Console (Logging.Wrapped Logging.Stderr) in
  let p := snd (Logging.init open_log_file level (Some path) Logging.fresh) in
  fst (Logging.init open_log_file level (Some path) Logging.fresh) = None
  /\ Logging.log_call p r
     = [(Logging.LogFile path, plain); (console, coloured)]
  /\ Logging.call_handlers (rev (Logging.handlers (Logging.url_submitter p))) r
     = [(console, coloured); (Logging.LogFile path, coloured)].
Proof.
  intros Hpath Hopen [Hpos Hle] Hc plain coloured console p. subst p.
  assert (Hcf : Logging.color_format r
                = (coloured,
                   Logging.mkRecord
                     (Logging.levelno r)
                     (color +:+ Logging.levelname r +:+ Logging.Style_RESET_ALL)
                     (Logging.asctime r) (Logging.msg r)))
    by (unfold Logging.color_format; by rewrite Hc).
  unfold Logging.log_call, Logging.effective_level, Logging.init.
  rewrite (truthy_nonempty _ Hpath), Hopen.
  cbn -[Logging.color_format Z.leb Z.eqb].
  destruct (Z.eqb_spec level 0) as [->|_]; [lia|].
  destruct (Z.leb_spec level (Logging.levelno r)) as [_|?]; [|lia].
  rewrite Hcf. cbn -[Logging.color_format Z.leb Z.eqb].
  destruct (Z.leb_spec level (Logging.levelno r)) as [_|?]; [|lia].
  done.
Qed.

Lemma log_file_gets_plain_lines_witness :
  let r := Logging.record_of ERROR "2026-01-01 00:00:00" "boom" in
  let console := Logging.Console (Logging.Wrapped Logging.Stderr) in
  let p := snd (Logging.init (fun _ => None) Logging.INFO_no (Some "run.log")
                             Logging.fresh) in
  fst (Logging.init (fun _ => None) Logging.INFO_no (Some "run.log") Logging.fresh)
  = None
  /\ Logging.log_call p r
     = [(Logging.LogFile "run.log",
         "[" +:+ Logging.asctime r +:+ "-" +:+ Logging.levelname r
             +:+ "]: " +:+ Logging.msg r);
        (console,
         "[" +:+ Logging.asctime r +:+ "-"
             +:+ (Logging.Fore_RED +:+ Logging.levelname r +:+ Logging.Style_RESET_ALL)
             +:+ "]: " +:+ Logging.msg r)]
  /\ Logging.call_handlers (rev (Logging.handlers (Logging.url_submitter p))) r
     = [(console,
         "[" +:+ Logging.asctime r +:+ "-"
             +:+ (Logging.Fore_RED +:+ Logging.levelname r +:+ Logging.Style_RESET_ALL)
             +:+ "]: " +:+ Logging.msg r);
        (Logging.LogFile "run.log",
         "[" +:+ Logging.asctime r +:+ "-"
             +:+ (Logging.Fore_RED +:+ Logging.levelname r +:+ Logging.Style_RESET_ALL)
             +:+ "]: " +:+ Logging.msg r)].
Proof.
  intros r console p.
  apply (log_file_gets_plain_lines (fun _ => None) Logging.INFO_no "run.log" r
                                   Logging.Fore_RED);
    [discriminate | reflexivity | by vm_compute | reflexivity].
Defined.

(** The lines as they read for an error. *)
Example error_lines :
  Logging.log_call
    (snd (Logging.init (fun _ => None) Logging.INFO_no (Some "run.log")
                       Logging.fresh))
    (Logging.record_of ERROR "2026-01-01 00:00:00" "boom")
  = [(Logging.LogFile "run.log", "[2026-01-01 00:00:00-ERROR]: boom");
     (Logging.Console (Logging.Wrapped Logging.Stderr),
      "[2026-01-01 00:00:00-" +:+ String "027" "[31mERROR"
                              +:+ String "027" "[0m]: boom")].
Proof. reflexivity. Qed.

(** A log file that does not open: the constructor raises, having wrapped
    the standard error and set the level, and the logger has no handler;
    an error logged then goes, bare, through [logging.lastResort] to the
    wrapper. *)
Example log_file_does_not_open :
  let denied := FileNotFoundError "[Errno 2] No such file or directory" in
  let p := snd (Logging.init (fun _ => Some denied) Logging.INFO_no
                             (Some "no/such/run.log") Logging.fresh) in
  fst (Logging.init (fun _ => Some denied) Logging.INFO_no
                    (Some "no/such/run.log") Logging.fresh)
  = Some denied
  /\ p = Logging.mkProcess (Logging.Wrapped Logging.Stderr)
                           (Logging.mkLogger Logging.INFO_no [])
  /\ Logging.log_call p (Logging.record_of ERROR "2026-01-01 00:00:00" "boom")
     = [(Logging.Console (Logging.Wrapped Logging.Stderr), "boom")].
Proof. by repeat split. Qed.

Lemma color_format_levelno (r : Logging.Record_) :
  Logging.levelno (snd (Logging.color_format r)) = Logging.levelno r.
Proof.
  unfold Logging.color_format.
  by destruct (Logging.dict_get (Logging.levelname r) Logging.LEVEL_COLORS).
Qed.

Lemma call_console_handlers (level : Z) (streams : list Logging.Stream) :
  forall r,
    level <= Logging.levelno r ->
    Logging.call_handlers
      (map (fun s => Logging.mkHandler (Logging.Console s) level Logging.Color)
           streams) r
    = map (fun s => (Logging.Console s, fst (Logging.color_format r))) streams.
Proof.
  induction streams as [|s streams IH]; intros r Hle; [done|].
  cbn -[Logging.color_format Z.leb].
  destruct (Z.leb_spec level (Logging.levelno r)) as [_|?]; [|lia].
  pose proof (coloring_happens_once_lemma r) as Hagain.
  pose proof (color_format_levelno r) as Hno.
  destruct (Logging.color_format r) as [line r'] eqn:Hcf.
  cbn [fst snd] in *.
  rewrite IH by lia. by rewrite Hagain.
Qed.

Lemma log_call_with_handlers (p : Logging.Process) (r : Logging.Record_) :
  Logging.handlers (Logging.url_submitter p) <> [] ->
  Logging.effective_level (Logging.url_submitter p) <= Logging.levelno r ->
  Logging.log_call p r
  = Logging.call_handlers (Logging.handlers (Logging.url_submitter p)) r.
Proof.
  intros Hne Hle. unfold Logging.log_call. cbn zeta.
  destruct (Z.leb_spec (Logging.effective_level (Logging.url_submitter p))
                       (Logging.levelno r)) as [_|?]; [|lia].
  by destruct (Logging.handlers (Logging.url_submitter p)).
Qed.

Lemma init_without_log_file (open_log_file : string -> option exn) (level : Z)
      (p : Logging.Process) :
  snd (Logging.init open_log_file level None p)
  = Logging.mkProcess
      (Logging.Wrapped (Logging.sys_stderr p))
      (Logging.mkLogger
         level
         (Logging.handlers (Logging.url_submitter p)
          ++ [Logging.mkHandler
                (Logging.Console (Logging.Wrapped (Logging.sys_stderr p)))
                level Logging.Color])).
Proof. unfold Logging.init, Logging.colorama_init. simpl. by rewrite app_nil_r. Qed.

(** Every construction wraps the standard error once more and adds one
    console handler, on the wrapper it has just made. *)
Lemma handlers_pile_up (open_log_file : string -> option exn) (level : Z) (k : nat) :
  let p := Nat.iter k (fun p => snd (Logging.init open_log_file level None p))
                    Logging.fresh in
  Logging.sys_stderr p = Nat.iter k Logging.Wrapped Logging.Stderr
  /\ Logging.logger_level (Logging.url_submitter p)
     = (if k is O then 0 else level)
  /\ Logging.handlers (Logging.url_submitter p)
     = map (fun s => Logging.mkHandler (Logging.Console s) level Logging.Color)
           (map (fun i => Nat.iter i Logging.Wrapped Logging.Stderr) (seq 1 k)).
Proof.
  induction k as [|k IH]; [done|].
  cbn zeta in *. rewrite seq_S, !map_app.
  destruct IH as (Herr & _ & Hh).
  rewrite !Nat.iter_succ. cbv beta. rewrite init_without_log_file.
  cbn [Logging.sys_stderr Logging.url_submitter Logging.handlers
       Logging.logger_level].
  rewrite Herr, Hh. done.
Qed.

(** X18. [Logger.__init__] wraps the standard error and adds its handlers
    to the one logger named ['URLSubmitter'] without looking at what is
    already there: after [k] constructions (no log file), every record
    that passes the level is written [k] times, each time the same line,
    coloured once; the [i]-th copy goes to the stream of the [i]-th
    console handler, which is the standard error under [i] wrappers of
    [colorama]. *)
Theorem repeated_setup_duplicates_lines
        (open_log_file : string -> option exn)
        (level : Z) (k : nat) (r : Logging.Record_) :
  (0 < k)%nat ->
  0 < level <= Logging.levelno r ->
  Logging.log_call
    (Nat.iter k (fun p => snd (Logging.init open_log_file level None p))
              Logging.fresh) r
  = map (fun i => (Logging.Console (Nat.iter i Logging.Wrapped Logging.Stderr),
                   fst (Logging.color_format r)))
        (seq 1 k).
Proof.
  intros Hk [Hpos Hle].
  destruct (handlers_pile_up open_log_file level k) as (_ & Hlevel & Hh).
  cbn zeta in Hlevel, Hh.
  destruct k as [|k]; [lia|].
  rewrite log_call_with_handlers.
  - rewrite Hh, call_console_handlers by lia. by rewrite map_map.
  - by rewrite Hh.
  - unfold Logging.effective_level. rewrite Hlevel.
    destruct (Z.eqb_spec level 0); lia.
Qed.

Lemma repeated_setup_duplicates_lines_witness :
  let r := Logging.record_of WARNING "2026-01-01 00:00:00" "twice" in
  Logging.log_call
    (Nat.iter 2 (fun p => snd (Logging.init (fun _ => None) Logging.INFO_no None p))
              Logging.fresh) r
  = map (fun i => (Logging.Console (Nat.iter i Logging.Wrapped Logging.Stderr),
                   fst (Logging.color_format r)))
        (seq 1 2).
Proof.
  intros r.
  apply (repeated_setup_duplicates_lines (fun _ => None) Logging.INFO_no 2 r);
    [lia | by vm_compute].
Defined.

(** Two constructions, one warning. *)
Example warning_twice :
  Logging.log_call
    (Nat.iter 2 (fun p => snd (Logging.init (fun _ => None) Logging.INFO_no None p))
              Logging.fresh)
    (Logging.record_of WARNING "2026-01-01 00:00:00" "twice")
  = [(Logging.Console (Logging.Wrapped Logging.Stderr),
      "[2026-01-01 00:00:00-" +:+ String "027" "[33mWARNING"
                              +:+ String "027" "[0m]: twice");
     (Logging.Console (Logging.Wrapped (Logging.Wrapped Logging.Stderr)),
      "[2026-01-01 00:00:00-" +:+ String "027" "[33mWARNING"
                              +:+ String "027" "[0m]: twice")].
Proof. reflexivity. Qed.

(** ** The sample the batch submitter sends *)

(** X19. The sample is not biased towards any part of the input: for
    every arrangement of [min(len(urls), limit)] pairwise distinct
    positions of the input there is a generator under which the batch
    submitter sends exactly the URLs at those positions, in that
    order. *)
Theorem every_arrangement_can_be_sent
        (env : Env) (w : World) (key : string)
        (urls : list string) (site_url : string) (limit : Z) (ps : list nat) :
  key <> "" ->
  NoDup ps ->
  Forall (fun p => (p < length urls)%nat) ps ->
  len ps = Z.min (len urls) limit ->
  exists rnd r w' req url_list,
    BingSubmitter.submit_urls (Some key) urls site_url limit
                              (with_rand env rnd) w = (inr r, w')
    /\ sent w' = sent w ++ [req]
    /\ req_json req
       = JObj [("siteUrl", JStr site_url); ("urlList", JArr (map JStr url_list))]
    /\ at_positions urls ps url_list.
Proof.
  intros Hkey Hnd Hlt Hlen.
  pose proof (len_nonneg ps) as Hps. pose proof (len_nonneg urls) as Hu.
  assert (Harr : arrangement (length urls) (Z.min (len urls) limit) ps)
    by (split; [done|]; split; [done | exact Hlen]).
  destruct (RandomFacts.sampled_positions_reach (draws w) _ _ _ Harr)
    as [rnd Hreach].
  destruct (RandomFacts.sample_total
              (rand (with_rand env rnd)) (draws w) urls
              (Z.min (len urls) limit))
    as (url_list & t_s & rest & Hs & _ & _ & _); [lia|].
  destruct (bing_run (with_rand env rnd) w urls site_url key limit url_list t_s
                     Hkey Hs)
    as (r & Hr & _).
  exists rnd, r. do 3 eexists. split; [exact Hr|]. split; [done|]. split; [done|].
  apply RandomFacts.sample_at_sampled_positions in Hs as (ps' & Hps' & _ & Hat).
  cbn [rand with_rand] in Hps'. rewrite Hreach in Hps'. by injection Hps' as <-.
Qed.

(** The last two of three URLs, in reverse order. *)
Lemma every_arrangement_can_be_sent_witness :
  let env := Fixture.env true (inr Fixture.sitemap3) (inr Fixture.ok_response) in
  exists rnd r w' req url_list,
    BingSubmitter.submit_urls (Some "k") Fixture.three_urls "https://a.example" 2
                              (with_rand env rnd) world0 = (inr r, w')
    /\ sent w' = sent world0 ++ [req]
    /\ req_json req
       = JObj [("siteUrl", JStr "https://a.example");
               ("urlList", JArr (map JStr url_list))]
    /\ at_positions Fixture.three_urls [2; 1]%nat url_list.
Proof.
  intros env.
  apply (every_arrangement_can_be_sent env world0 "k" Fixture.three_urls
                                       "https://a.example" 2 [2; 1]%nat).
  - discriminate.
  - apply (bool_decide_unpack _). by vm_compute.
  - repeat constructor; simpl; lia.
  - by vm_compute.
Defined.

(** X22. What a submission costs the generator: with a key and a
    non-negative limit the batch submitter consumes at least one draw
    per URL it sends, exactly that many on a list of at most [setsize]
    URLs (with the default limit of 10: at most 85), and possibly more on
    a longer list, where a position drawn twice is drawn again.  The push
    submitter consumes none. *)
Theorem submission_consumes_draws
        (env : Env) (w : World) (key : string)
        (urls : list string) (site_url : string) (limit : Z) :
  key <> "" ->
  0 <= limit ->
  (exists r w',
      BingSubmitter.submit_urls (Some key) urls site_url limit env w = (inr r, w')
      /\ (draws w + Z.to_nat (Z.min (len urls) limit) <= draws w')%nat
      /\ (len urls <= Random.setsize (Z.min (len urls) limit) ->
          draws w' = (draws w + Z.to_nat (Z.min (len urls) limit))%nat))
  /\ (exists r w',
         IndexNowSubmitter.submit_urls (Some key) urls site_url env w = (inr r, w')
         /\ draws w' = draws w).
Proof.
  intros Hkey Hlim. pose proof (len_nonneg urls) as Hlen. split.
  - destruct (RandomFacts.sample_total
                (rand env) (draws w) urls (Z.min (len urls) limit))
      as (url_list & t_s & rest & Hs & _ & _ & Ht); [lia|].
    destruct (bing_run env w urls site_url key limit url_list t_s Hkey Hs)
      as (r & Hr & _).
    do 2 eexists. split; [exact Hr|]. split; [exact Ht|].
    intros Hn. simpl. exact (RandomFacts.sample_pool_consumes _ _ _ _ _ _ Hn Hs).
  - destruct (indexnow_run env w urls site_url key Hkey) as (r & Hr & _).
    do 2 eexists. split; [exact Hr|]. done.
Qed.

(** A hundred URLs under the default limit, and a generator that starts
    with five collisions: fifteen draws for ten URLs. *)
Lemma submission_consumes_draws_witness :
  let urls := map (fun n => "https://a.example/" +:+ PyStr.of_Z n)
                  (map Z.of_nat (seq 0 100)) in
  let g := scripted [5; 5; 5; 7; 7; 90; 1; 2; 3; 4; 5; 6; 7; 8; 9; 10; 11; 12]%nat in
  let env := with_rand (Fixture.env true (inr Fixture.sitemap3)
                                    (inr Fixture.ok_response)) g in
  draws (snd (BingSubmitter.submit_urls (Some "k") urls "https://a.example" 10
                                        env world0)) = 15%nat
  /\ (exists r w',
         BingSubmitter.submit_urls (Some "k") urls "https://a.example" 10 env world0
         = (inr r, w')
         /\ (draws world0 + Z.to_nat (Z.min (len urls) 10) <= draws w')%nat
         /\ (len urls <= Random.setsize (Z.min (len urls) 10) ->
             draws w' = (draws world0 + Z.to_nat (Z.min (len urls) 10))%nat))
  /\ (exists r w',
         IndexNowSubmitter.submit_urls (Some "k") urls "https://a.example" env world0
         = (inr r, w')
         /\ draws w' = draws world0).
Proof.
  intros urls g env. split; [by vm_compute|].
  apply (submission_consumes_draws env world0 "k" urls "https://a.example" 10);
    [discriminate | lia].
Defined.

(** ** The parser: documents put together *)

(** X20. The parser's result is put together child by child: the URLs of
    a document whose root has the children [cs1 ++ cs2] are the URLs
    found under [cs1] followed by those found under [cs2], so order and
    repetitions are kept; the root's own tag and text play no part (a
    root that is itself an [item] is not visited). *)
Theorem collect_is_compositional
        (t t' : string) (x x' : option string) (cs1 cs2 : list Element) :
  SitemapParser.collect (Elem t x (cs1 ++ cs2))
  = SitemapParser.collect (Elem t x cs1) ++ SitemapParser.collect (Elem t x cs2)
  /\ SitemapParser.collect (Elem t x cs1) = SitemapParser.collect (Elem t' x' cs1).
Proof.
  split; [|done].
  unfold SitemapParser.collect, ET.findall_descendants. simpl.
  rewrite !fold_visit. simpl. by rewrite !flat_map_app.
Qed.
